(** * plasmapy/atomic/particles.py: the particle taxonomy and the
      dictionary of special particles

    A shallow embedding of [_ParticleZooClass] and [_create_Particles_dict].
    Python sets are [gset string], Python dicts are [gmap string _], a missing
    key ([KeyError]) is [None], and the body of [_create_Particles_dict] is a
    computation in a state-and-error monad over the dictionary [Particles].
    The order in which Python walks a set is not fixed by the language, so the
    loops over sets take the order as a parameter. *)

From Stdlib Require Import ZArith String Floats.
From stdpp Require Import gmap strings list fin_maps fin_sets.

#[local] Set Warnings "-inexact-float".
#[local] Open Scope string_scope.

(** ** Values *)

(** [astropy.units]: the two units the module uses. *)
Module u.
Inductive Unit : Set := kg | s.
End u.

(** [astropy.constants]: the three constants the module reads.  Each is an
    opaque quantity of the external library. *)
Module const.
Inductive Constant : Set := m_e | m_p | m_n.
End const.

(** A physical quantity: an astropy constant, or [value * unit]. *)
Inductive Quantity : Set :=
| Const (c : const.Constant)
| Mul (value : float) (unit : u.Unit).

(** The Python values stored in a particle's dictionary. *)
Inductive PyValue : Set :=
| PyNone
| PyBool (b : bool)
| PyInt (z : Z)
| PyFloat (f : float)
| PyStr (str : string)
| PyQuantity (q : Quantity).

(** [np.inf] *)
Module np.
Definition inf : float := infinity.
End np.

(** One particle's dictionary, and the dictionary of all of them. *)
Abbreviation ParticleDict := (gmap string PyValue).
Abbreviation ParticlesDict := (gmap string (gmap string PyValue)).

(** ** Strings and literals *)

(** [sub in str] on Python strings: [sub] occurs in [str] as a substring. *)
Fixpoint contains (sub str : string) : bool :=
  String.prefix sub str ||
  match str with
  | EmptyString => false
  | String _ rest => contains sub rest
  end.

(** A set display [{a, b, ...}]. *)
Definition set_literal (l : list string) : gset string := list_to_set l.

(** A dict display [{k1: v1, k2: v2, ...}]: the pairs are stored from left to
    right, a later pair replacing an earlier one with the same key. *)
Definition dict_literal {V} (l : list (string * V)) : gmap string V :=
  foldl (λ d kv, <[kv.1 := kv.2]> d) ∅ l.

(** ** The taxonomy: [_ParticleZooClass] *)

Record _ParticleZooClass := { _taxonomy_dict : gmap string (gset string) }.

Definition __init__ : _ParticleZooClass :=
  let leptons := set_literal ["e-"; "mu-"; "tau-"; "nu_e"; "nu_mu"; "nu_tau"] in
  let antileptons :=
    set_literal ["e+"; "mu+"; "tau+"; "anti_nu_e"; "anti_nu_mu"; "anti_nu_tau"] in
  let baryons := set_literal ["p+"; "n"] in
  let antibaryons := set_literal ["p-"; "antineutron"] in
  let particles := leptons ∪ baryons in
  let antiparticles := antileptons ∪ antibaryons in
  let fermions := leptons ∪ antileptons ∪ baryons ∪ antibaryons in
  let bosons : gset string := ∅ in
  let neutrinos := filter (λ lepton, Is_true (contains "nu" lepton)) leptons in
  let antineutrinos :=
    filter (λ antilepton, Is_true (contains "nu" antilepton)) antileptons in
  {| _taxonomy_dict := dict_literal [
       ("lepton", leptons);
       ("antilepton", antileptons);
       ("baryon", baryons);
       ("antibaryon", antibaryons);
       ("fermion", fermions);
       ("boson", bosons);
       ("neutrino", neutrinos);
       ("antineutrinos", antineutrinos);
       ("matter", particles);
       ("antimatter", antiparticles) ] |}.

(** The properties: each reads one key of [_taxonomy_dict]; a key that is
    not there raises [KeyError], here [None]. *)
Definition leptons (self : _ParticleZooClass) : option (gset string) :=
  _taxonomy_dict self !! "lepton".
Definition antileptons (self : _ParticleZooClass) : option (gset string) :=
  _taxonomy_dict self !! "antilepton".
Definition baryons (self : _ParticleZooClass) : option (gset string) :=
  _taxonomy_dict self !! "baryon".
Definition antibaryons (self : _ParticleZooClass) : option (gset string) :=
  _taxonomy_dict self !! "antibaryon".
Definition fermions (self : _ParticleZooClass) : option (gset string) :=
  _taxonomy_dict self !! "fermion".
Definition bosons (self : _ParticleZooClass) : option (gset string) :=
  _taxonomy_dict self !! "boson".
Definition neutrinos (self : _ParticleZooClass) : option (gset string) :=
  _taxonomy_dict self !! "neutrino".
Definition antineutrinos (self : _ParticleZooClass) : option (gset string) :=
  _taxonomy_dict self !! "antineutrinos".
Definition particles (self : _ParticleZooClass) : option (gset string) :=
  _taxonomy_dict self !! "matter".
Definition antiparticles (self : _ParticleZooClass) : option (gset string) :=
  _taxonomy_dict self !! "antimatter".
Definition everything (self : _ParticleZooClass) : option (gset string) :=
  matter ← _taxonomy_dict self !! "matter";
  antimatter ← _taxonomy_dict self !! "antimatter";
  Some (matter ∪ antimatter).

Definition ParticleZoo : _ParticleZooClass := __init__.

(** ** The state of [_create_Particles_dict]

    The function builds the local dictionary [Particles] by assignments; an
    assignment through a key that is missing raises [KeyError].  A statement
    is a function from the dictionary to [None] (an exception) or to a result
    and the new dictionary. *)

Definition Build (A : Type) : Type := ParticlesDict → option (A * ParticlesDict).

#[global] Instance Build_ret : MRet Build := λ A a Particles, Some (a, Particles).
#[global] Instance Build_bind : MBind Build := λ A B k m Particles,
  match m Particles with
  | Some (a, Particles') => k a Particles'
  | None => None
  end.

(** The value of an expression that does not read [Particles] and may
    raise, such as a property of [ParticleZoo]. *)
Definition evaluate {A} (o : option A) : Build A := λ Particles,
  match o with
  | Some a => Some (a, Particles)
  | None => None
  end.

(** [Particles[thing] = dict()] *)
Definition new_dict (thing : string) : Build unit := λ Particles,
  Some (tt, <[thing := ∅]> Particles).

(** [Particles[thing][key] = value]: [Particles[thing]] is looked up, and
    the dictionary found is updated in place. *)
Definition setitem (thing key : string) (value : PyValue) : Build unit := λ Particles,
  match Particles !! thing with
  | Some d => Some (tt, <[thing := <[key := value]> d]> Particles)
  | None => None
  end.

(** [key in Particles[thing].keys()] *)
Definition has_key (thing key : string) : Build bool := λ Particles,
  match Particles !! thing with
  | Some d => Some (bool_decide (is_Some (d !! key)), Particles)
  | None => None
  end.

(** [for x in l: body x] *)
Fixpoint for_ {A} (l : list A) (body : A → Build unit) : Build unit :=
  match l with
  | [] => mret tt
  | x :: l' => body x;; for_ l' body
  end.

(** Statements one after the other. *)
Fixpoint block (stmts : list (Build unit)) : Build unit :=
  match stmts with
  | [] => mret tt
  | stmt :: rest => stmt;; block rest
  end.

(** The dictionary a statement leaves when it starts from [Particles]. *)
Definition exec (m : Build unit) (Particles : ParticlesDict) : option ParticlesDict :=
  snd <$> m Particles.

(** [Particles[thing][key]], read after the build. *)
Definition field (Particles : ParticlesDict) (thing key : string) : option PyValue :=
  d ← Particles !! thing; d !! key.

(** ** [_create_Particles_dict] *)

Definition symbols_and_names : list (string * string) := [
  ("e-", "electron");
  ("e+", "positron");
  ("mu-", "muon");
  ("mu+", "antimuon");
  ("tau-", "tau");
  ("tau+", "antitau");
  ("nu_e", "electron neutrino");
  ("anti_nu_e", "electron antineutrino");
  ("nu_mu", "muon neutrino");
  ("anti_nu_mu", "muon antineutrino");
  ("nu_tau", "tau neutrino");
  ("anti_nu_tau", "tau antineutrino");
  ("p+", "proton");
  ("p-", "antiproton");
  ("n", "neutron");
  ("antineutron", "antineutron") ].

Section Create.

(** The order in which a [for] loop walks a set. *)
Variable iter : gset string → list string.

(** [for thing in ParticleZoo.everything: Particles[thing] = dict()] *)
Definition create_dicts : Build unit :=
  things ← evaluate (everything ParticleZoo);
  for_ (iter things) (λ thing, new_dict thing).

(** [for symbol, name in symbols_and_names: ...] *)
Definition set_names : Build unit :=
  for_ symbols_and_names (λ '(symbol, name), setitem symbol "name" (PyStr name)).

(** [for fermion in ParticleZoo.fermions: ...] *)
Definition set_fermion_spins : Build unit :=
  things ← evaluate (fermions ParticleZoo);
  for_ (iter things) (λ fermion, setitem fermion "spin" (PyFloat 0.5)).

(** [for boson in ParticleZoo.bosons: ...] *)
Definition set_boson_spins : Build unit :=
  things ← evaluate (bosons ParticleZoo);
  for_ (iter things) (λ boson, setitem boson "spin" (PyInt 0)).

(** [for lepton in ParticleZoo.leptons: ...] *)
Definition set_leptons : Build unit :=
  things ← evaluate (leptons ParticleZoo);
  for_ (iter things) (λ lepton,
    setitem lepton "class" (PyStr "lepton");;
    setitem lepton "lepton number" (PyInt 1);;
    setitem lepton "baryon number" (PyInt 0);;
    nus ← evaluate (neutrinos ParticleZoo);
    if bool_decide (lepton ∉ nus)
    then setitem lepton "charge" (PyInt (-1))
    else setitem lepton "charge" (PyInt 0)).

(** [for antilepton in ParticleZoo.antileptons: ...] *)
Definition set_antileptons : Build unit :=
  things ← evaluate (antileptons ParticleZoo);
  for_ (iter things) (λ antilepton,
    setitem antilepton "class" (PyStr "antilepton");;
    setitem antilepton "lepton number" (PyInt (-1));;
    setitem antilepton "baryon number" (PyInt 0);;
    nus ← evaluate (antineutrinos ParticleZoo);
    if bool_decide (antilepton ∉ nus)
    then setitem antilepton "charge" (PyInt 1)
    else setitem antilepton "charge" (PyInt 0)).

(** [for baryon in ParticleZoo.baryons: ...] *)
Definition set_baryons : Build unit :=
  things ← evaluate (baryons ParticleZoo);
  for_ (iter things) (λ baryon,
    setitem baryon "class" (PyStr "baryon");;
    setitem baryon "lepton number" (PyInt 0);;
    setitem baryon "baryon number" (PyInt 1)).

(** [for antibaryon in ParticleZoo.antibaryons: ...] *)
Definition set_antibaryons : Build unit :=
  things ← evaluate (antibaryons ParticleZoo);
  for_ (iter things) (λ antibaryon,
    setitem antibaryon "class" (PyStr "antibaryon");;
    setitem antibaryon "lepton number" (PyInt 0);;
    setitem antibaryon "baryon number" (PyInt (-1))).

(** The [if]/[elif] chain of the generation loop, for one [thing]: the chain
    has no [else], so a symbol none of the tests matches is left alone. *)
Definition set_generation (thing : string) : Build unit :=
  if contains "e" thing then setitem thing "generation" (PyInt 1)
  else if contains "mu" thing then setitem thing "generation" (PyInt 2)
  else if contains "tau" thing then setitem thing "generation" (PyInt 3)
  else mret tt.

(** [for thing in ParticleZoo.leptons | ParticleZoo.antileptons: ...],
    the first such loop. *)
Definition set_generations : Build unit :=
  ls ← evaluate (leptons ParticleZoo);
  als ← evaluate (antileptons ParticleZoo);
  for_ (iter (ls ∪ als)) set_generation.

(** [for thing in ParticleZoo.leptons | ParticleZoo.antileptons: ...],
    the second such loop. *)
Definition set_lepton_masses : Build unit :=
  ls ← evaluate (leptons ParticleZoo);
  als ← evaluate (antileptons ParticleZoo);
  for_ (iter (ls ∪ als)) (λ thing,
    if negb (contains "nu" thing) then
      if contains "e" thing then
        setitem thing "mass" (PyQuantity (Const const.m_e))
      else if contains "mu" thing then
        setitem thing "mass" (PyQuantity (Mul 1.883_531_594e-28 u.kg));;
        setitem thing "half-life" (PyQuantity (Mul 2.1969811e-6 u.s))
      else if contains "tau" thing then
        setitem thing "mass" (PyQuantity (Mul 3.167_47e-27 u.kg));;
        setitem thing "half-life" (PyQuantity (Mul 2.906e-13 u.s))
      else mret tt
    else mret tt).

(** [for thing in ParticleZoo.neutrinos | ParticleZoo.antineutrinos: ...] *)
Definition set_neutrino_masses : Build unit :=
  nus ← evaluate (neutrinos ParticleZoo);
  anus ← evaluate (antineutrinos ParticleZoo);
  for_ (iter (nus ∪ anus)) (λ thing, setitem thing "mass" PyNone).

(** [for thing in ['p+', 'p-']: ...] *)
Definition set_proton_masses : Build unit :=
  for_ ["p+"; "p-"] (λ thing, setitem thing "mass" (PyQuantity (Const const.m_p))).

(** [Particles['p+']['charge'] = 1] and [Particles['p-']['charge'] = -1] *)
Definition set_proton_charge : Build unit := setitem "p+" "charge" (PyInt 1).
Definition set_antiproton_charge : Build unit := setitem "p-" "charge" (PyInt (-1)).

(** [for thing in ['n', 'antineutron']: ...] *)
Definition set_neutrons : Build unit :=
  for_ ["n"; "antineutron"] (λ thing,
    setitem thing "mass" (PyQuantity (Const const.m_n));;
    setitem thing "half-life" (PyQuantity (Mul 881.5 u.s));;
    setitem thing "charge" (PyInt 0)).

(** [for thing in ParticleZoo.everything: if 'half-life' not in ...] *)
Definition set_stable_half_lives : Build unit :=
  things ← evaluate (everything ParticleZoo);
  for_ (iter things) (λ thing,
    present ← has_key thing "half-life";
    if negb present
    then setitem thing "half-life" (PyQuantity (Mul np.inf u.s))
    else mret tt).

(** [for particle in ParticleZoo.particles: ...] *)
Definition set_matter : Build unit :=
  things ← evaluate (particles ParticleZoo);
  for_ (iter things) (λ particle, setitem particle "antimatter" (PyBool false)).

(** [for antiparticle in ParticleZoo.antiparticles: ...] *)
Definition set_antimatter : Build unit :=
  things ← evaluate (antiparticles ParticleZoo);
  for_ (iter things) (λ antiparticle, setitem antiparticle "antimatter" (PyBool true)).

(** The statements of the function body after [Particles = dict()], in the
    order of the source. *)
Definition statements : list (Build unit) := [
  create_dicts;
  set_names;
  set_fermion_spins;
  set_boson_spins;
  set_leptons;
  set_antileptons;
  set_baryons;
  set_antibaryons;
  set_generations;
  set_lepton_masses;
  set_neutrino_masses;
  set_proton_masses;
  set_proton_charge;
  set_antiproton_charge;
  set_neutrons;
  set_stable_half_lives;
  set_matter;
  set_antimatter ].

(** The function: [Particles = dict()], the statements, [return Particles]. *)
Definition _create_Particles_dict : option ParticlesDict :=
  exec (block statements) ∅.

(** [Particles] after the first [n] statements: the state at a point of the
    body. *)
Definition Particles_after (n : nat) : option ParticlesDict :=
  exec (block (take n statements)) ∅.

End Create.

(** ** Vocabulary of the properties *)

(** Two statements are the same when they do the same to every dictionary. *)
Definition same {A} (m1 m2 : Build A) : Prop := ∀ Particles, m1 Particles = m2 Particles.

(** [acts_on thing m]: the statement [m] reads and writes nothing of
    [Particles] but the entry of [thing]; [f] gives, from that entry (or its
    absence), the result and the new entry, or the exception. *)
Definition acts_on {A} (thing : string) (m : Build A) : Type :=
  { f : option ParticleDict → option (A * option ParticleDict) |
    ∀ Particles : ParticlesDict,
      m Particles =
      match f (Particles !! thing) with
      | Some (a, entry) => Some (a, partial_alter (λ _, entry) thing Particles)
      | None => None
      end }.

(** An order of iteration visits each member of the set once. *)
Definition walks (iter : gset string → list string) : Prop :=
  ∀ X, iter X ≡ₚ elements X.

(** The symbols of [symbols_and_names], in its order. *)
Definition symbols : list string := fst <$> symbols_and_names.

(** The ten keys a particle's dictionary can have. *)
Definition field_names : list string :=
  ["name"; "class"; "spin"; "charge"; "lepton number"; "baryon number";
   "generation"; "mass"; "half-life"; "antimatter"].

(** The keys other than ["generation"]. *)
Definition common_field_names : list string :=
  ["name"; "class"; "spin"; "charge"; "lepton number"; "baryon number";
   "mass"; "half-life"; "antimatter"].

(** What [Particles[thing]] holds under each of the ten keys. *)
Definition row (Particles : ParticlesDict) (thing : string) : list (option PyValue) :=
  field Particles thing <$> field_names.

(** Every one of [things] has every one of [keys]. *)
Definition populated (Particles : ParticlesDict) (things : gset string)
    (keys : list string) : Prop :=
  ∀ thing, thing ∈ things → ∀ key, key ∈ keys → is_Some (field Particles thing key).

(** The charges of ['p+'] and ['p-'] after the first [n] statements. *)
Definition proton_charges (iter : gset string → list string) (n : nat)
    : option (option PyValue * option PyValue) :=
  Particles ← Particles_after iter n;
  Some (field Particles "p+" "charge", field Particles "p-" "charge").

(** What [Particles[thing]] holds under [key] after the first [n]
    statements. *)
Definition field_after (iter : gset string → list string) (n : nat)
    (thing key : string) : option (option PyValue) :=
  Particles ← Particles_after iter n; Some (field Particles thing key).

(** The keys of [Particles[thing]] after the first [n] statements, in the
    order of [field_names]. *)
Definition keys_after (iter : gset string → list string) (n : nat)
    (thing : string) : option (list string) :=
  Particles ← Particles_after iter n;
  Some (filter (λ key, is_Some (field Particles thing key)) field_names).

(** How many of the three tests of the generation loop a symbol passes. *)
Definition generation_tests_passed (thing : string) : nat :=
  Nat.b2n (contains "e" thing) + Nat.b2n (contains "mu" thing) +
  Nat.b2n (contains "tau" thing).

(** [w] is the integer [v] negated. *)
Definition negated (v w : option PyValue) : Prop :=
  ∃ z : Z, v = Some (PyInt z) ∧ w = Some (PyInt (- z)).

(** The particles with their antiparticles. *)
Definition antiparticle_pairs : list (string * string) :=
  [("e-", "e+"); ("mu-", "mu+"); ("tau-", "tau+");
   ("nu_e", "anti_nu_e"); ("nu_mu", "anti_nu_mu"); ("nu_tau", "anti_nu_tau");
   ("p+", "p-"); ("n", "antineutron")].

(** The record of a particle as the table of the registry lists it. *)
Definition entry (name class : string) (charge lepton_number baryon_number : Z)
    (generation : option Z) (mass : PyValue) (half_life : float) (antimatter : bool)
    : list (option PyValue) :=
  [Some (PyStr name); Some (PyStr class); Some (PyFloat 0.5); Some (PyInt charge);
   Some (PyInt lepton_number); Some (PyInt baryon_number); PyInt <$> generation;
   Some mass; Some (PyQuantity (Mul half_life u.s)); Some (PyBool antimatter)].

(** [m] keeps the invariant [I] of the dictionary whenever it returns. *)
Definition keeps {A} (I : ParticlesDict → Prop) (m : Build A) : Prop :=
  ∀ Particles a Particles',
    I Particles → m Particles = Some (a, Particles') → I Particles'.

(** The records are those of [things], and no record has a key that is
    not one of the ten. *)
Definition registry_shape (things : gset string) (Particles : ParticlesDict) : Prop :=
  (∀ thing, is_Some (Particles !! thing) ↔ thing ∈ things) ∧
  (∀ thing key, is_Some (field Particles thing key) → key ∈ field_names).

(** The ten fields of each symbol of [symbols_and_names] after the first
    [n] statements. *)
Definition snapshot (iter : gset string → list string) (n : nat)
    : option (list (list (option PyValue))) :=
  Particles ← Particles_after iter n; Some (row Particles <$> symbols).

(** A field that was set still has its value. *)
Definition kept (before after : option PyValue) : Prop :=
  before = None ∨ before = after.

(** What a loop [for thing in things: Particles[thing][key] = value] does
    to a dictionary: it returns exactly when each of [things] has a record,
    and then it has set [key] to [value] in these records and changed
    nothing else. *)
Definition assigns (stmt : Build unit) (things : gset string) (key : string)
    (value : PyValue) (Particles : ParticlesDict) : Prop :=
  (is_Some (stmt Particles) ↔
   ∀ thing, thing ∈ things → is_Some (Particles !! thing)) ∧
  ∀ Particles', stmt Particles = Some (tt, Particles') →
    ∀ thing k,
      field Particles' thing k =
      if decide (thing ∈ things ∧ k = key) then Some value
      else field Particles thing k.

(** What the body of the last-but-two loop does to one record: it sets
    ['half-life'] to [np.inf * u.s] when the record has none. *)
Definition with_default_half_life (d : ParticleDict) : ParticleDict :=
  if decide (is_Some (d !! "half-life")) then d
  else <["half-life" := PyQuantity (Mul np.inf u.s)]> d.

(** ** Statements that touch one particle *)

#[global] Instance same_equivalence {A} : Equivalence (@same A).
Proof.
  split.
  - intros m P. reflexivity.
  - intros m1 m2 H P. symmetry. apply H.
  - intros m1 m2 m3 H12 H23 P. rewrite H12. apply H23.
Qed.

Lemma same_bind {A B} (m1 m2 : Build A) (k1 k2 : A → Build B) :
  same m1 m2 → (∀ a, same (k1 a) (k2 a)) → same (m1 ≫= k1) (m2 ≫= k2).
Proof.
  intros Hm Hk P. unfold mbind, Build_bind. rewrite Hm.
  destruct (m2 P) as [[a P']|]; [apply Hk | reflexivity].
Qed.

Lemma bind_assoc {A B C} (m : Build A) (k : A → Build B) (h : B → Build C) :
  same ((m ≫= k) ≫= h) (m ≫= λ a, k a ≫= h).
Proof.
  intros P. unfold mbind, Build_bind.
  destruct (m P) as [[a P']|]; reflexivity.
Qed.

Lemma acts_on_ret {A} thing (a : A) : acts_on thing (mret a).
Proof.
  exists (λ entry, Some (a, entry)). intros P.
  rewrite partial_alter_self. reflexivity.
Qed.

Lemma acts_on_evaluate {A} thing (o : option A) : acts_on thing (evaluate o).
Proof.
  exists (λ entry, match o with Some a => Some (a, entry) | None => None end).
  intros P. unfold evaluate. destruct o; [|reflexivity].
  rewrite partial_alter_self. reflexivity.
Qed.

Lemma acts_on_new_dict thing : acts_on thing (new_dict thing).
Proof. exists (λ _, Some (tt, Some ∅)). intros P. reflexivity. Qed.

Lemma acts_on_setitem thing key value : acts_on thing (setitem thing key value).
Proof.
  exists (λ entry,
    match entry with Some d => Some (tt, Some (<[key := value]> d)) | None => None end).
  intros P. unfold setitem. destruct (P !! thing); reflexivity.
Qed.

Lemma acts_on_has_key thing key : acts_on thing (has_key thing key).
Proof.
  exists (λ entry,
    match entry with
    | Some d => Some (bool_decide (is_Some (d !! key)), entry)
    | None => None
    end).
  intros P. unfold has_key. destruct (P !! thing) as [d|] eqn:E; [|reflexivity].
  rewrite <- E, partial_alter_self. reflexivity.
Qed.

Lemma acts_on_bind {A B} thing (m : Build A) (k : A → Build B) :
  acts_on thing m → (∀ a, acts_on thing (k a)) → acts_on thing (m ≫= k).
Proof.
  intros [f Hf] Hk.
  exists (λ entry,
    match f entry with
    | Some (a, entry') => proj1_sig (Hk a) entry'
    | None => None
    end).
  intros P. unfold mbind, Build_bind. rewrite Hf.
  destruct (f (P !! thing)) as [[a entry']|]; [|reflexivity].
  destruct (Hk a) as [g Hg]; simpl. rewrite Hg, lookup_partial_alter_eq.
  destruct (g entry') as [[b entry'']|]; [|reflexivity].
  rewrite partial_alter_partial_alter_eq. reflexivity.
Qed.

Lemma acts_on_if {A} thing (b : bool) (m1 m2 : Build A) :
  acts_on thing m1 → acts_on thing m2 → acts_on thing (if b then m1 else m2).
Proof. destruct b; auto. Qed.

Create HintDb acts_on.
#[export] Hint Resolve acts_on_ret acts_on_evaluate acts_on_new_dict acts_on_setitem
  acts_on_has_key acts_on_if : acts_on.
#[export] Hint Extern 2 (acts_on _ (_ ≫= _)) =>
  apply acts_on_bind; [|intros ?] : acts_on.

(** Statements on two different particles can be swapped. *)
Lemma acts_on_swap (thing1 thing2 : string) (m1 m2 : Build unit) :
  thing1 ≠ thing2 → acts_on thing1 m1 → acts_on thing2 m2 →
  same (m1;; m2) (m2;; m1).
Proof.
  intros Hne [f1 H1] [f2 H2] P. unfold mbind, Build_bind.
  rewrite H1, H2.
  destruct (f1 (P !! thing1)) as [[[] e1]|] eqn:E1,
           (f2 (P !! thing2)) as [[[] e2]|] eqn:E2;
    rewrite ?H1, ?H2, ?lookup_partial_alter_ne, ?E1, ?E2 by done;
    try reflexivity.
  rewrite partial_alter_partial_alter_ne by done. reflexivity.
Qed.

(** A loop whose body acts on the loop variable alone does the same in
    every order. *)
Lemma for_Permutation (body : string → Build unit) (l1 l2 : list string) :
  (∀ thing, acts_on thing (body thing)) →
  l1 ≡ₚ l2 → same (for_ l1 body) (for_ l2 body).
Proof.
  intros Hbody Hperm.
  induction Hperm as [|x l1 l2 _ IH|x y l|l1 l2 l3 _ IH12 _ IH23]; simpl.
  - reflexivity.
  - apply same_bind; [reflexivity | intros _; exact IH].
  - rewrite <- !bind_assoc. apply same_bind; [|reflexivity].
    destruct (decide (y = x)) as [->|Hne]; [reflexivity|].
    eapply acts_on_swap; eauto.
  - etransitivity; eassumption.
Qed.

(** ** The order of the loops does not matter *)

Lemma walks_elements : walks elements.
Proof. intros X. reflexivity. Qed.

Lemma walks_reverse : walks (λ X, reverse (elements X)).
Proof. intros X. apply reverse_Permutation. Qed.

Lemma for_walks iter1 iter2 (X : gset string) (body : string → Build unit) :
  walks iter1 → walks iter2 →
  (∀ thing, acts_on thing (body thing)) →
  same (for_ (iter1 X) body) (for_ (iter2 X) body).
Proof.
  intros H1 H2 Hbody. apply for_Permutation; [exact Hbody|].
  rewrite (H1 X), (H2 X). reflexivity.
Qed.

Ltac same_statement :=
  lazymatch goal with
  | |- same (for_ (_ _) _) (for_ (_ _) _) =>
      apply for_walks; [assumption | assumption | intros ?; eauto 10 with acts_on]
  | |- same (_ ≫= _) (_ ≫= _) =>
      apply same_bind; [reflexivity | intros ?; same_statement]
  end.

Lemma statements_same iter1 iter2 :
  walks iter1 → walks iter2 →
  Forall2 same (statements iter1) (statements iter2).
Proof.
  intros H1 H2. unfold statements.
  repeat lazymatch goal with
  | |- Forall2 _ (_ :: _) (_ :: _) => constructor
  | |- Forall2 _ [] [] => constructor
  end.
  - unfold create_dicts. same_statement.
  - reflexivity.
  - unfold set_fermion_spins. same_statement.
  - unfold set_boson_spins. same_statement.
  - unfold set_leptons. same_statement.
  - unfold set_antileptons. same_statement.
  - unfold set_baryons. same_statement.
  - unfold set_antibaryons. same_statement.
  - unfold set_generations, set_generation. same_statement.
  - unfold set_lepton_masses. same_statement.
  - unfold set_neutrino_masses. same_statement.
  - reflexivity.
  - reflexivity.
  - reflexivity.
  - reflexivity.
  - unfold set_stable_half_lives. same_statement.
  - unfold set_matter. same_statement.
  - unfold set_antimatter. same_statement.
Qed.

Lemma block_same (l1 l2 : list (Build unit)) :
  Forall2 same l1 l2 → same (block l1) (block l2).
Proof.
  induction 1 as [|m1 m2 l1 l2 Hm _ IH]; simpl.
  - reflexivity.
  - apply same_bind; [exact Hm | intros _; exact IH].
Qed.

(** At every point of the body the dictionary is the same whatever the
    orders of the loops before it. *)
Lemma Particles_after_order iter1 iter2 n :
  walks iter1 → walks iter2 →
  Particles_after iter1 n = Particles_after iter2 n.
Proof.
  intros H1 H2. unfold Particles_after, exec. f_equal.
  apply block_same, Forall2_take, statements_same; assumption.
Qed.

Lemma create_Particles_dict_order iter1 iter2 :
  walks iter1 → walks iter2 →
  _create_Particles_dict iter1 = _create_Particles_dict iter2.
Proof.
  intros H1 H2. unfold _create_Particles_dict, exec. f_equal.
  apply block_same, statements_same; assumption.
Qed.

(** ** The taxonomy, evaluated *)

Lemma leptons_eq :
  leptons ParticleZoo =
  Some (set_literal ["e-"; "mu-"; "tau-"; "nu_e"; "nu_mu"; "nu_tau"]).
Proof. reflexivity. Qed.

Lemma antileptons_eq :
  antileptons ParticleZoo =
  Some (set_literal ["e+"; "mu+"; "tau+"; "anti_nu_e"; "anti_nu_mu"; "anti_nu_tau"]).
Proof. reflexivity. Qed.

Lemma baryons_eq : baryons ParticleZoo = Some (set_literal ["p+"; "n"]).
Proof. reflexivity. Qed.

Lemma antibaryons_eq : antibaryons ParticleZoo = Some (set_literal ["p-"; "antineutron"]).
Proof. reflexivity. Qed.

Lemma bosons_eq : bosons ParticleZoo = Some ∅.
Proof. reflexivity. Qed.

Lemma fermions_eq :
  fermions ParticleZoo =
  Some (set_literal ["e-"; "mu-"; "tau-"; "nu_e"; "nu_mu"; "nu_tau"] ∪
        set_literal ["e+"; "mu+"; "tau+"; "anti_nu_e"; "anti_nu_mu"; "anti_nu_tau"] ∪
        set_literal ["p+"; "n"] ∪ set_literal ["p-"; "antineutron"]).
Proof. reflexivity. Qed.

Lemma particles_eq :
  particles ParticleZoo =
  Some (set_literal ["e-"; "mu-"; "tau-"; "nu_e"; "nu_mu"; "nu_tau"] ∪
        set_literal ["p+"; "n"]).
Proof. reflexivity. Qed.

Lemma antiparticles_eq :
  antiparticles ParticleZoo =
  Some (set_literal ["e+"; "mu+"; "tau+"; "anti_nu_e"; "anti_nu_mu"; "anti_nu_tau"] ∪
        set_literal ["p-"; "antineutron"]).
Proof. reflexivity. Qed.

(** Membership in a set display is membership in the list. *)
Lemma elem_of_set_literal (x : string) (l : list string) :
  x ∈ set_literal l ↔ x ∈ l.
Proof. unfold set_literal. apply elem_of_list_to_set. Qed.

(** Splits membership in a set given by displays into its cases. *)
Ltac members H :=
  lazymatch type of H with
  | _ ∈ _ ∪ _ => rewrite elem_of_union in H; destruct H as [H|H]; members H
  | _ ∈ set_literal _ => rewrite elem_of_set_literal in H; members H
  | _ ∈ _ :: _ => rewrite elem_of_cons in H; destruct H as [->|H]; [|members H]
  | _ ∈ [] => apply elem_of_nil in H; destruct H
  | _ ∈ ∅ => apply not_elem_of_empty in H; destruct H
  end.

(** Proves that a given symbol is in a set given by displays. *)
Ltac member :=
  lazymatch goal with
  | |- _ ∈ _ ∪ _ => rewrite elem_of_union; first [left; member | right; member]
  | |- _ ∈ set_literal _ => rewrite elem_of_set_literal; member
  | |- _ ∈ _ :: _ => rewrite elem_of_cons; first [left; reflexivity | right; member]
  end.

(** The two comprehensions keep the symbols with ['nu'] in them. *)
Lemma neutrinos_eq :
  neutrinos ParticleZoo = Some (set_literal ["nu_e"; "nu_mu"; "nu_tau"]).
Proof.
  change (neutrinos ParticleZoo) with
    (Some (filter (λ lepton, Is_true (contains "nu" lepton))
             (set_literal ["e-"; "mu-"; "tau-"; "nu_e"; "nu_mu"; "nu_tau"]))).
  apply (f_equal Some), set_eq. intros x. rewrite elem_of_filter. split.
  - intros [Hnu Hx]. members Hx; first [member | destruct Hnu].
  - intros Hx. members Hx; (split; [exact I | member]).
Qed.

Lemma antineutrinos_eq :
  antineutrinos ParticleZoo =
  Some (set_literal ["anti_nu_e"; "anti_nu_mu"; "anti_nu_tau"]).
Proof.
  change (antineutrinos ParticleZoo) with
    (Some (filter (λ antilepton, Is_true (contains "nu" antilepton))
             (set_literal ["e+"; "mu+"; "tau+";
                           "anti_nu_e"; "anti_nu_mu"; "anti_nu_tau"]))).
  apply (f_equal Some), set_eq. intros x. rewrite elem_of_filter. split.
  - intros [Hnu Hx]. members Hx; first [member | destruct Hnu].
  - intros Hx. members Hx; (split; [exact I | member]).
Qed.

Lemma everything_eq :
  everything ParticleZoo =
  Some (set_literal ["e-"; "mu-"; "tau-"; "nu_e"; "nu_mu"; "nu_tau"] ∪
        set_literal ["p+"; "n"] ∪
        (set_literal ["e+"; "mu+"; "tau+"; "anti_nu_e"; "anti_nu_mu"; "anti_nu_tau"] ∪
         set_literal ["p-"; "antineutron"])).
Proof. reflexivity. Qed.

(** A display of different symbols has as many members as it lists. *)
Lemma size_set_literal (l : list string) :
  NoDup l → size (set_literal l) = length l.
Proof. apply size_list_to_set. Qed.

Lemma set_literal_union (l1 l2 : list string) :
  set_literal l1 ∪ set_literal l2 = set_literal (l1 ++ l2).
Proof. unfold set_literal. symmetry. apply list_to_set_app_L. Qed.

(** ** The registry, evaluated *)

(** The records [_create_Particles_dict] returns, symbol by symbol in the
    order of [symbols_and_names]. *)
Lemma registry_rows_elements :
  (Particles ← _create_Particles_dict elements; Some (row Particles <$> symbols)) =
  Some [
    entry "electron" "lepton" (-1) 1 0 (Some 1%Z)
      (PyQuantity (Const const.m_e)) np.inf false;
    entry "positron" "antilepton" 1 (-1) 0 (Some 1%Z)
      (PyQuantity (Const const.m_e)) np.inf true;
    entry "muon" "lepton" (-1) 1 0 (Some 2%Z)
      (PyQuantity (Mul 1.883_531_594e-28 u.kg)) 2.1969811e-6 false;
    entry "antimuon" "antilepton" 1 (-1) 0 (Some 2%Z)
      (PyQuantity (Mul 1.883_531_594e-28 u.kg)) 2.1969811e-6 true;
    entry "tau" "lepton" (-1) 1 0 (Some 3%Z)
      (PyQuantity (Mul 3.167_47e-27 u.kg)) 2.906e-13 false;
    entry "antitau" "antilepton" 1 (-1) 0 (Some 3%Z)
      (PyQuantity (Mul 3.167_47e-27 u.kg)) 2.906e-13 true;
    entry "electron neutrino" "lepton" 0 1 0 (Some 1%Z) PyNone np.inf false;
    entry "electron antineutrino" "antilepton" 0 (-1) 0 (Some 1%Z) PyNone np.inf true;
    entry "muon neutrino" "lepton" 0 1 0 (Some 2%Z) PyNone np.inf false;
    entry "muon antineutrino" "antilepton" 0 (-1) 0 (Some 2%Z) PyNone np.inf true;
    entry "tau neutrino" "lepton" 0 1 0 (Some 3%Z) PyNone np.inf false;
    entry "tau antineutrino" "antilepton" 0 (-1) 0 (Some 3%Z) PyNone np.inf true;
    entry "proton" "baryon" 1 0 1 None
      (PyQuantity (Const const.m_p)) np.inf false;
    entry "antiproton" "antibaryon" (-1) 0 (-1) None
      (PyQuantity (Const const.m_p)) np.inf true;
    entry "neutron" "baryon" 0 0 1 None
      (PyQuantity (Const const.m_n)) 881.5 false;
    entry "antineutron" "antibaryon" 0 0 (-1) None
      (PyQuantity (Const const.m_n)) 881.5 true ].
Proof. vm_compute. reflexivity. Qed.

Lemma create_Particles_dict_elements iter :
  walks iter → _create_Particles_dict iter = _create_Particles_dict elements.
Proof.
  intros H. apply create_Particles_dict_order; [exact H | exact walks_elements].
Qed.

(** Splits an equation between two lists given element by element into
    the equations between their elements. *)
Lemma cons_eq_inv {A} (x y : A) (l k : list A) : x :: l = y :: k → x = y ∧ l = k.
Proof. intros H. injection H as -> ->. split; reflexivity. Qed.

Ltac explode H :=
  lazymatch type of H with
  | _ :: _ = _ :: _ =>
      let F := fresh "F" in apply cons_eq_inv in H as [F H]; explode F; explode H
  | [] = [] => clear H
  | _ => idtac
  end.

(** The function returns, and what it returns has the fields of the table
    above. *)
Ltac registry_elements Particles :=
  let T := fresh "T" in
  generalize registry_rows_elements;
  destruct (_create_Particles_dict elements) as [Particles|]; intros T;
  [|discriminate T];
  cbv [mbind option_bind] in T; apply (inj Some) in T;
  cbv [symbols symbols_and_names fmap list_fmap fst row field_names entry
       option_fmap option_map np.inf] in T;
  explode T.

(** The same in whatever order the loops walk their sets. *)
Ltac registry Hw Particles :=
  rewrite (create_Particles_dict_elements _ Hw); registry_elements Particles.

Ltac by_computation :=
  lazymatch goal with
  | |- ?P => apply (bool_decide_unpack P); vm_compute; exact I
  end.

(** Refutes that a given symbol is in a set given by displays. *)
Ltac absurd_member H :=
  lazymatch type of H with
  | _ ∈ _ ∪ _ => rewrite elem_of_union in H; destruct H as [H|H]; absurd_member H
  | _ ∈ set_literal _ => rewrite elem_of_set_literal in H; absurd_member H
  | ?x ∈ ?l => exfalso; revert H; apply (bool_decide_unpack (x ∉ l)); vm_compute; exact I
  end.

Lemma field_is_Some_record (Particles : ParticlesDict) thing key :
  is_Some (field Particles thing key) → is_Some (Particles !! thing).
Proof.
  unfold field. destruct (Particles !! thing) as [d|]; [eauto|].
  intros [v Hv]. discriminate Hv.
Qed.

(** C5: for each of the six neutrino and antineutrino symbols the record
    built has charge 0 and the mass [None], the sentinel of an unknown mass,
    which is no numeric zero.  This holds in whatever order the loops walk
    their sets. *)
Theorem neutrinos_charge_and_mass (iter : gset string → list string) :
  walks iter →
  ∃ nus anus Particles,
    neutrinos ParticleZoo = Some nus ∧
    antineutrinos ParticleZoo = Some anus ∧
    size (nus ∪ anus) = 6 ∧
    _create_Particles_dict iter = Some Particles ∧
    ∀ thing, thing ∈ nus ∪ anus →
      field Particles thing "charge" = Some (PyInt 0) ∧
      field Particles thing "mass" = Some PyNone ∧
      field Particles thing "mass" ≠ Some (PyInt 0) ∧
      field Particles thing "mass" ≠ Some (PyFloat 0) ∧
      ∀ unit, field Particles thing "mass" ≠ Some (PyQuantity (Mul 0 unit)).
Proof.
  intros Hw. registry Hw Particles.
  exists (set_literal ["nu_e"; "nu_mu"; "nu_tau"]),
         (set_literal ["anti_nu_e"; "anti_nu_mu"; "anti_nu_tau"]), Particles.
  split; [exact neutrinos_eq|].
  split; [exact antineutrinos_eq|].
  split; [vm_compute; reflexivity|].
  split; [reflexivity|].
  intros thing Hthing. members Hthing.
  all: match goal with
       | H : field _ ?s "mass" = _ |- context [field _ ?s "mass"] =>
           rewrite H
       end.
  all: repeat split; try assumption; try discriminate; intros; discriminate.
Qed.

Lemma neutrinos_charge_and_mass_witness :
  walks (λ X, reverse (elements X)) ∧
  ∃ nus anus Particles,
    neutrinos ParticleZoo = Some nus ∧
    antineutrinos ParticleZoo = Some anus ∧
    size (nus ∪ anus) = 6 ∧
    _create_Particles_dict (λ X, reverse (elements X)) = Some Particles ∧
    ∀ thing, thing ∈ nus ∪ anus →
      field Particles thing "charge" = Some (PyInt 0) ∧
      field Particles thing "mass" = Some PyNone ∧
      field Particles thing "mass" ≠ Some (PyInt 0) ∧
      field Particles thing "mass" ≠ Some (PyFloat 0) ∧
      ∀ unit, field Particles thing "mass" ≠ Some (PyQuantity (Mul 0 unit)).
Proof.
  split.
  - intros X. apply reverse_Permutation.
  - apply (neutrinos_charge_and_mass (λ X, reverse (elements X))).
    intros X. apply reverse_Permutation.
Defined.

(** ** Which fields a record has *)

(** C1, as the specification states it, fails: the record of ['p+'] has no
    ['generation'], so the sixteen records do not all have the ten fields. *)
Lemma registry_lacks_baryon_generation :
  ∃ things Particles,
    everything ParticleZoo = Some things ∧
    _create_Particles_dict elements = Some Particles ∧
    "p+" ∈ things ∧
    field Particles "p+" "generation" = None ∧
    ¬ populated Particles things field_names.
Proof.
  registry_elements Particles.
  eexists _, Particles. split; [exact everything_eq|].
  split; [reflexivity|].
  assert (Hin : "p+" ∈
    set_literal ["e-"; "mu-"; "tau-"; "nu_e"; "nu_mu"; "nu_tau"] ∪
    set_literal ["p+"; "n"] ∪
    (set_literal ["e+"; "mu+"; "tau+"; "anti_nu_e"; "anti_nu_mu"; "anti_nu_tau"] ∪
     set_literal ["p-"; "antineutron"])) by member.
  split; [exact Hin|]. split; [assumption|].
  intros Hall.
  destruct (Hall "p+" Hin "generation") as [v Hv].
  - unfold field_names. member.
  - congruence.
Qed.

(** C1, amended: after the build each of the sixteen symbols of
    [everything] has the nine fields name, class, spin, charge, lepton
    number, baryon number, mass, half-life and antimatter, and each of the
    twelve leptons and antileptons has a generation as well.  The sixteen
    are the leptons, the antileptons, the baryons and the antibaryons; the
    records of the four baryons and antibaryons have no ['generation'],
    and the function returns them as they are. *)
Theorem registry_populated (iter : gset string → list string) :
  walks iter →
  ∃ things ls als bs abs Particles,
    everything ParticleZoo = Some things ∧
    leptons ParticleZoo = Some ls ∧
    antileptons ParticleZoo = Some als ∧
    baryons ParticleZoo = Some bs ∧
    antibaryons ParticleZoo = Some abs ∧
    size things = 16 ∧
    size (ls ∪ als) = 12 ∧
    size (bs ∪ abs) = 4 ∧
    (∀ thing, thing ∈ things ↔ thing ∈ ls ∪ als ∨ thing ∈ bs ∪ abs) ∧
    _create_Particles_dict iter = Some Particles ∧
    populated Particles things common_field_names ∧
    populated Particles (ls ∪ als) ["generation"] ∧
    (∀ thing, thing ∈ bs ∪ abs → field Particles thing "generation" = None).
Proof.
  intros Hw. registry Hw Particles.
  eexists _, _, _, _, _, Particles.
  split; [exact everything_eq|].
  split; [exact leptons_eq|].
  split; [exact antileptons_eq|].
  split; [exact baryons_eq|].
  split; [exact antibaryons_eq|].
  split.
  { rewrite !set_literal_union, size_set_literal; [reflexivity | by_computation]. }
  split.
  { rewrite !set_literal_union, size_set_literal; [reflexivity | by_computation]. }
  split.
  { rewrite !set_literal_union, size_set_literal; [reflexivity | by_computation]. }
  split.
  { intros thing. rewrite !elem_of_union. tauto. }
  split; [reflexivity|].
  split; [|split].
  - intros thing Hthing key Hkey. unfold common_field_names in Hkey.
    members Hthing; members Hkey; eexists; eassumption.
  - intros thing Hthing key Hkey.
    members Hthing; members Hkey; eexists; eassumption.
  - intros thing Hthing. members Hthing; assumption.
Qed.

Lemma registry_populated_witness :
  walks elements ∧
  ∃ things ls als bs abs Particles,
    everything ParticleZoo = Some things ∧
    leptons ParticleZoo = Some ls ∧
    antileptons ParticleZoo = Some als ∧
    baryons ParticleZoo = Some bs ∧
    antibaryons ParticleZoo = Some abs ∧
    size things = 16 ∧
    size (ls ∪ als) = 12 ∧
    size (bs ∪ abs) = 4 ∧
    (∀ thing, thing ∈ things ↔ thing ∈ ls ∪ als ∨ thing ∈ bs ∪ abs) ∧
    _create_Particles_dict elements = Some Particles ∧
    populated Particles things common_field_names ∧
    populated Particles (ls ∪ als) ["generation"] ∧
    (∀ thing, thing ∈ bs ∪ abs → field Particles thing "generation" = None).
Proof.
  split.
  - intros X. reflexivity.
  - apply (registry_populated elements). intros X. reflexivity.
Defined.

(** C10: after the build the records of the four baryons and antibaryons
    are there and have no ['generation'], while each of the twelve leptons
    and antileptons has one. *)
Theorem generation_only_for_leptons (iter : gset string → list string) :
  walks iter →
  ∃ bs abs ls als Particles,
    baryons ParticleZoo = Some bs ∧
    antibaryons ParticleZoo = Some abs ∧
    leptons ParticleZoo = Some ls ∧
    antileptons ParticleZoo = Some als ∧
    size (bs ∪ abs) = 4 ∧
    size (ls ∪ als) = 12 ∧
    _create_Particles_dict iter = Some Particles ∧
    (∀ thing, thing ∈ bs ∪ abs →
       is_Some (Particles !! thing) ∧
       field Particles thing "generation" = None) ∧
    (∀ thing, thing ∈ ls ∪ als →
       is_Some (field Particles thing "generation")).
Proof.
  intros Hw. registry Hw Particles.
  eexists _, _, _, _, Particles.
  split; [exact baryons_eq|].
  split; [exact antibaryons_eq|].
  split; [exact leptons_eq|].
  split; [exact antileptons_eq|].
  split.
  { rewrite !set_literal_union, size_set_literal; [reflexivity | by_computation]. }
  split.
  { rewrite !set_literal_union, size_set_literal; [reflexivity | by_computation]. }
  split; [reflexivity|].
  split.
  - intros thing Hthing. members Hthing.
    all: split; [|assumption].
    all: apply (field_is_Some_record _ _ "name"); eexists; eassumption.
  - intros thing Hthing. members Hthing; eexists; eassumption.
Qed.

Lemma generation_only_for_leptons_witness :
  walks elements ∧
  ∃ bs abs ls als Particles,
    baryons ParticleZoo = Some bs ∧
    antibaryons ParticleZoo = Some abs ∧
    leptons ParticleZoo = Some ls ∧
    antileptons ParticleZoo = Some als ∧
    size (bs ∪ abs) = 4 ∧
    size (ls ∪ als) = 12 ∧
    _create_Particles_dict elements = Some Particles ∧
    (∀ thing, thing ∈ bs ∪ abs →
       is_Some (Particles !! thing) ∧
       field Particles thing "generation" = None) ∧
    (∀ thing, thing ∈ ls ∪ als →
       is_Some (field Particles thing "generation")).
Proof.
  split.
  - intros X. reflexivity.
  - apply (generation_only_for_leptons elements). intros X. reflexivity.
Defined.

(** ** Values of the fields *)

(** C4: each of the twelve leptons and antileptons passes exactly one of
    the three tests ['e' in thing], ['mu' in thing], ['tau' in thing]; the
    branch taken sets the generation to 1 for the electron family, 2 for the
    muon family and 3 for the tau family, so the chain never falls through
    for them, and these are the generations in the registry. *)
Theorem lepton_generations (iter : gset string → list string) :
  walks iter →
  ∃ ls als Particles,
    leptons ParticleZoo = Some ls ∧
    antileptons ParticleZoo = Some als ∧
    _create_Particles_dict iter = Some Particles ∧
    ∀ thing, thing ∈ ls ∪ als →
      generation_tests_passed thing = 1 ∧
      ((thing ∈ ["e-"; "e+"; "nu_e"; "anti_nu_e"] ∧
        contains "e" thing = true ∧
        set_generation thing = setitem thing "generation" (PyInt 1) ∧
        field Particles thing "generation" = Some (PyInt 1)) ∨
       (thing ∈ ["mu-"; "mu+"; "nu_mu"; "anti_nu_mu"] ∧
        contains "mu" thing = true ∧
        set_generation thing = setitem thing "generation" (PyInt 2) ∧
        field Particles thing "generation" = Some (PyInt 2)) ∨
       (thing ∈ ["tau-"; "tau+"; "nu_tau"; "anti_nu_tau"] ∧
        contains "tau" thing = true ∧
        set_generation thing = setitem thing "generation" (PyInt 3) ∧
        field Particles thing "generation" = Some (PyInt 3))).
Proof.
  intros Hw. registry Hw Particles.
  eexists _, _, Particles.
  split; [exact leptons_eq|].
  split; [exact antileptons_eq|].
  split; [reflexivity|].
  intros thing Hthing. members Hthing.
  all: split; [reflexivity|].
  all: first
    [ left; split; [member|]; split; [reflexivity|]; split; [reflexivity|assumption]
    | right; left; split; [member|]; split; [reflexivity|];
      split; [reflexivity|assumption]
    | right; right; split; [member|]; split; [reflexivity|];
      split; [reflexivity|assumption] ].
Qed.

Lemma lepton_generations_witness :
  walks elements ∧
  ∃ ls als Particles,
    leptons ParticleZoo = Some ls ∧
    antileptons ParticleZoo = Some als ∧
    _create_Particles_dict elements = Some Particles ∧
    ∀ thing, thing ∈ ls ∪ als →
      generation_tests_passed thing = 1 ∧
      ((thing ∈ ["e-"; "e+"; "nu_e"; "anti_nu_e"] ∧
        contains "e" thing = true ∧
        set_generation thing = setitem thing "generation" (PyInt 1) ∧
        field Particles thing "generation" = Some (PyInt 1)) ∨
       (thing ∈ ["mu-"; "mu+"; "nu_mu"; "anti_nu_mu"] ∧
        contains "mu" thing = true ∧
        set_generation thing = setitem thing "generation" (PyInt 2) ∧
        field Particles thing "generation" = Some (PyInt 2)) ∨
       (thing ∈ ["tau-"; "tau+"; "nu_tau"; "anti_nu_tau"] ∧
        contains "tau" thing = true ∧
        set_generation thing = setitem thing "generation" (PyInt 3) ∧
        field Particles thing "generation" = Some (PyInt 3))).
Proof.
  split.
  - intros X. reflexivity.
  - apply (lepton_generations elements). intros X. reflexivity.
Defined.

(** C7: after the build ['n'] and ['antineutron'] have the half-life
    881.5 s and the charge 0, ['mu-'] and ['mu+'] the half-life
    2.1969811e-6 s, ['tau-'] and ['tau+'] the half-life 2.906e-13 s, and
    every other symbol of [everything] -- ['e-'], ['e+'], the six neutrinos
    and antineutrinos, ['p+'] and ['p-'] -- the half-life [np.inf * u.s]. *)
Theorem half_lives (iter : gset string → list string) :
  walks iter →
  ∃ things Particles,
    everything ParticleZoo = Some things ∧
    _create_Particles_dict iter = Some Particles ∧
    (∀ thing, thing ∈ ["n"; "antineutron"] →
       field Particles thing "half-life" = Some (PyQuantity (Mul 881.5 u.s)) ∧
       field Particles thing "charge" = Some (PyInt 0)) ∧
    (∀ thing, thing ∈ ["mu-"; "mu+"] →
       field Particles thing "half-life" = Some (PyQuantity (Mul 2.1969811e-6 u.s))) ∧
    (∀ thing, thing ∈ ["tau-"; "tau+"] →
       field Particles thing "half-life" = Some (PyQuantity (Mul 2.906e-13 u.s))) ∧
    (∀ thing, thing ∈ things →
       thing ∉ ["n"; "antineutron"; "mu-"; "mu+"; "tau-"; "tau+"] →
       field Particles thing "half-life" = Some (PyQuantity (Mul np.inf u.s))) ∧
    (∀ thing,
       thing ∈ ["e-"; "e+"; "nu_e"; "nu_mu"; "nu_tau";
                "anti_nu_e"; "anti_nu_mu"; "anti_nu_tau"; "p+"; "p-"] →
       thing ∈ things ∧
       field Particles thing "half-life" = Some (PyQuantity (Mul np.inf u.s))).
Proof.
  intros Hw. registry Hw Particles.
  eexists _, Particles.
  split; [exact everything_eq|].
  split; [reflexivity|].
  split; [intros thing Hthing; members Hthing; split; assumption|].
  split; [intros thing Hthing; members Hthing; assumption|].
  split; [intros thing Hthing; members Hthing; assumption|].
  split.
  - intros thing Hthing Hother.
    members Hthing; first [assumption | exfalso; apply Hother; member].
  - intros thing Hthing. members Hthing; (split; [member | assumption]).
Qed.

Lemma half_lives_witness :
  walks elements ∧
  ∃ things Particles,
    everything ParticleZoo = Some things ∧
    _create_Particles_dict elements = Some Particles ∧
    (∀ thing, thing ∈ ["n"; "antineutron"] →
       field Particles thing "half-life" = Some (PyQuantity (Mul 881.5 u.s)) ∧
       field Particles thing "charge" = Some (PyInt 0)) ∧
    (∀ thing, thing ∈ ["mu-"; "mu+"] →
       field Particles thing "half-life" = Some (PyQuantity (Mul 2.1969811e-6 u.s))) ∧
    (∀ thing, thing ∈ ["tau-"; "tau+"] →
       field Particles thing "half-life" = Some (PyQuantity (Mul 2.906e-13 u.s))) ∧
    (∀ thing, thing ∈ things →
       thing ∉ ["n"; "antineutron"; "mu-"; "mu+"; "tau-"; "tau+"] →
       field Particles thing "half-life" = Some (PyQuantity (Mul np.inf u.s))) ∧
    (∀ thing,
       thing ∈ ["e-"; "e+"; "nu_e"; "nu_mu"; "nu_tau";
                "anti_nu_e"; "anti_nu_mu"; "anti_nu_tau"; "p+"; "p-"] →
       thing ∈ things ∧
       field Particles thing "half-life" = Some (PyQuantity (Mul np.inf u.s))).
Proof.
  split.
  - intros X. reflexivity.
  - apply (half_lives elements). intros X. reflexivity.
Defined.

(** C9: for each of the eight pairs of a particle and its antiparticle the
    two records have negated charges, negated lepton numbers and negated
    baryon numbers, the same spin, the same mass and the same half-life, and
    ['antimatter'] is [False] for the particle and [True] for the
    antiparticle. *)
Theorem antiparticle_records (iter : gset string → list string) :
  walks iter →
  ∃ Particles,
    _create_Particles_dict iter = Some Particles ∧
    Forall (λ pair : string * string,
      negated (field Particles pair.1 "charge") (field Particles pair.2 "charge") ∧
      negated (field Particles pair.1 "lepton number")
              (field Particles pair.2 "lepton number") ∧
      negated (field Particles pair.1 "baryon number")
              (field Particles pair.2 "baryon number") ∧
      is_Some (field Particles pair.1 "spin") ∧
      field Particles pair.1 "spin" = field Particles pair.2 "spin" ∧
      is_Some (field Particles pair.1 "mass") ∧
      field Particles pair.1 "mass" = field Particles pair.2 "mass" ∧
      is_Some (field Particles pair.1 "half-life") ∧
      field Particles pair.1 "half-life" = field Particles pair.2 "half-life" ∧
      field Particles pair.1 "antimatter" = Some (PyBool false) ∧
      field Particles pair.2 "antimatter" = Some (PyBool true))
      antiparticle_pairs.
Proof.
  intros Hw. registry Hw Particles.
  exists Particles. split; [reflexivity|].
  unfold antiparticle_pairs.
  repeat lazymatch goal with
  | |- Forall _ (_ :: _) => constructor
  | |- Forall _ [] => constructor
  end.
  all: cbn [fst snd].
  all: repeat lazymatch goal with
  | |- _ ∧ _ => split
  | |- negated _ _ => eexists; split; eassumption
  | |- is_Some _ => eexists; eassumption
  | |- field _ _ "antimatter" = _ => assumption
  | |- field _ _ _ = field _ _ _ => etransitivity; [eassumption | symmetry; assumption]
  end.
Qed.

Lemma antiparticle_records_witness :
  walks (λ X, reverse (elements X)) ∧
  ∃ Particles,
    _create_Particles_dict (λ X, reverse (elements X)) = Some Particles ∧
    Forall (λ pair : string * string,
      negated (field Particles pair.1 "charge") (field Particles pair.2 "charge") ∧
      negated (field Particles pair.1 "lepton number")
              (field Particles pair.2 "lepton number") ∧
      negated (field Particles pair.1 "baryon number")
              (field Particles pair.2 "baryon number") ∧
      is_Some (field Particles pair.1 "spin") ∧
      field Particles pair.1 "spin" = field Particles pair.2 "spin" ∧
      is_Some (field Particles pair.1 "mass") ∧
      field Particles pair.1 "mass" = field Particles pair.2 "mass" ∧
      is_Some (field Particles pair.1 "half-life") ∧
      field Particles pair.1 "half-life" = field Particles pair.2 "half-life" ∧
      field Particles pair.1 "antimatter" = Some (PyBool false) ∧
      field Particles pair.2 "antimatter" = Some (PyBool true))
      antiparticle_pairs.
Proof.
  split.
  - intros X. apply reverse_Permutation.
  - apply (antiparticle_records (λ X, reverse (elements X))).
    intros X. apply reverse_Permutation.
Defined.

(** ** The build as a whole *)

(** C8: the build is deterministic: run twice against the taxonomy, in
    whatever orders the loops of the two runs walk their sets, it returns
    both times, and the two dictionaries are the same, field for field. *)
Theorem build_deterministic (iter1 iter2 : gset string → list string) :
  walks iter1 → walks iter2 →
  ∃ Particles1 Particles2,
    _create_Particles_dict iter1 = Some Particles1 ∧
    _create_Particles_dict iter2 = Some Particles2 ∧
    Particles1 = Particles2 ∧
    ∀ thing key, field Particles1 thing key = field Particles2 thing key.
Proof.
  intros Hw1 Hw2.
  rewrite (create_Particles_dict_order iter1 iter2 Hw1 Hw2).
  rewrite (create_Particles_dict_elements iter2 Hw2).
  generalize registry_rows_elements.
  destruct (_create_Particles_dict elements) as [Particles|]; intros T.
  - exists Particles, Particles. repeat split; reflexivity.
  - discriminate T.
Qed.

Lemma build_deterministic_witness :
  walks elements ∧ walks (λ X, reverse (elements X)) ∧
  ∃ Particles1 Particles2,
    _create_Particles_dict elements = Some Particles1 ∧
    _create_Particles_dict (λ X, reverse (elements X)) = Some Particles2 ∧
    Particles1 = Particles2 ∧
    ∀ thing key, field Particles1 thing key = field Particles2 thing key.
Proof.
  split; [|split].
  - intros X. reflexivity.
  - intros X. apply reverse_Permutation.
  - apply (build_deterministic elements (λ X, reverse (elements X))).
    + intros X. reflexivity.
    + intros X. apply reverse_Permutation.
Defined.

(** ** The charge of the protons *)

Lemma proton_charges_order iter1 iter2 n :
  walks iter1 → walks iter2 → proton_charges iter1 n = proton_charges iter2 n.
Proof.
  intros H1 H2. unfold proton_charges.
  rewrite (Particles_after_order iter1 iter2 n H1 H2). reflexivity.
Qed.

(** No statement before [Particles['p+']['charge'] = 1] gives a proton a
    charge. *)
Lemma no_proton_charge_before (n : nat) :
  (n ≤ 12)%nat → proton_charges elements n = Some (None, None).
Proof.
  intros Hn.
  do 13 (destruct n as [|n]; [vm_compute; reflexivity|]).
  lia.
Qed.

Lemma proton_charges_after :
  proton_charges elements 13 = Some (Some (PyInt 1), None) ∧
  proton_charges elements 14 = Some (Some (PyInt 1), Some (PyInt (-1))) ∧
  proton_charges elements 18 = Some (Some (PyInt 1), Some (PyInt (-1))).
Proof. repeat split; vm_compute; reflexivity. Qed.

Lemma field_after_order iter1 iter2 n thing key :
  walks iter1 → walks iter2 →
  field_after iter1 n thing key = field_after iter2 n thing key.
Proof.
  intros H1 H2. unfold field_after.
  rewrite (Particles_after_order iter1 iter2 n H1 H2). reflexivity.
Qed.

Lemma keys_after_order iter1 iter2 n thing :
  walks iter1 → walks iter2 → keys_after iter1 n thing = keys_after iter2 n thing.
Proof.
  intros H1 H2. unfold keys_after.
  rewrite (Particles_after_order iter1 iter2 n H1 H2). reflexivity.
Qed.

(** The charges of the sixteen symbols, in the order of
    [symbols_and_names]: none before the loop over the leptons, *)
Lemma charges_before_leptons (n : nat) :
  (n ≤ 4)%nat →
  (Particles ← Particles_after elements n;
   Some ((λ thing, field Particles thing "charge") <$> symbols)) =
  Some [None; None; None; None; None; None; None; None; None; None; None; None;
        None; None; None; None].
Proof.
  intros Hn.
  do 5 (destruct n as [|n]; [vm_compute; reflexivity|]).
  lia.
Qed.

(** those of the leptons after it, *)
Lemma charges_after_leptons :
  (Particles ← Particles_after elements 5;
   Some ((λ thing, field Particles thing "charge") <$> symbols)) =
  Some [Some (PyInt (-1)); None; Some (PyInt (-1)); None; Some (PyInt (-1)); None;
        Some (PyInt 0); None; Some (PyInt 0); None; Some (PyInt 0); None;
        None; None; None; None].
Proof. vm_compute. reflexivity. Qed.

(** and those of the leptons and the antileptons from the loop over the
    antileptons up to the assignment [Particles['p+']['charge'] = 1]. *)
Lemma charges_after_antileptons (n : nat) :
  (6 ≤ n)%nat → (n ≤ 12)%nat →
  (Particles ← Particles_after elements n;
   Some ((λ thing, field Particles thing "charge") <$> symbols)) =
  Some [Some (PyInt (-1)); Some (PyInt 1); Some (PyInt (-1)); Some (PyInt 1);
        Some (PyInt (-1)); Some (PyInt 1);
        Some (PyInt 0); Some (PyInt 0); Some (PyInt 0); Some (PyInt 0);
        Some (PyInt 0); Some (PyInt 0);
        None; None; None; None].
Proof.
  intros Hn Hn'.
  do 6 (destruct n as [|n]; [lia|]).
  do 7 (destruct n as [|n]; [vm_compute; reflexivity|]).
  lia.
Qed.

(** The keys of the sixteen records, in the order of [symbols_and_names],
    before the loop over the baryons, *)
Lemma keys_before_baryons :
  (Particles ← Particles_after elements 6;
   Some ((λ thing, filter (λ key, is_Some (field Particles thing key)) field_names)
           <$> symbols)) =
  Some [["name"; "class"; "spin"; "charge"; "lepton number"; "baryon number"];
        ["name"; "class"; "spin"; "charge"; "lepton number"; "baryon number"];
        ["name"; "class"; "spin"; "charge"; "lepton number"; "baryon number"];
        ["name"; "class"; "spin"; "charge"; "lepton number"; "baryon number"];
        ["name"; "class"; "spin"; "charge"; "lepton number"; "baryon number"];
        ["name"; "class"; "spin"; "charge"; "lepton number"; "baryon number"];
        ["name"; "class"; "spin"; "charge"; "lepton number"; "baryon number"];
        ["name"; "class"; "spin"; "charge"; "lepton number"; "baryon number"];
        ["name"; "class"; "spin"; "charge"; "lepton number"; "baryon number"];
        ["name"; "class"; "spin"; "charge"; "lepton number"; "baryon number"];
        ["name"; "class"; "spin"; "charge"; "lepton number"; "baryon number"];
        ["name"; "class"; "spin"; "charge"; "lepton number"; "baryon number"];
        ["name"; "spin"];
        ["name"; "spin"];
        ["name"; "spin"];
        ["name"; "spin"]].
Proof. vm_compute. reflexivity. Qed.

(** between it and the loop over the antibaryons, *)
Lemma keys_after_baryons :
  (Particles ← Particles_after elements 7;
   Some ((λ thing, filter (λ key, is_Some (field Particles thing key)) field_names)
           <$> symbols)) =
  Some [["name"; "class"; "spin"; "charge"; "lepton number"; "baryon number"];
        ["name"; "class"; "spin"; "charge"; "lepton number"; "baryon number"];
        ["name"; "class"; "spin"; "charge"; "lepton number"; "baryon number"];
        ["name"; "class"; "spin"; "charge"; "lepton number"; "baryon number"];
        ["name"; "class"; "spin"; "charge"; "lepton number"; "baryon number"];
        ["name"; "class"; "spin"; "charge"; "lepton number"; "baryon number"];
        ["name"; "class"; "spin"; "charge"; "lepton number"; "baryon number"];
        ["name"; "class"; "spin"; "charge"; "lepton number"; "baryon number"];
        ["name"; "class"; "spin"; "charge"; "lepton number"; "baryon number"];
        ["name"; "class"; "spin"; "charge"; "lepton number"; "baryon number"];
        ["name"; "class"; "spin"; "charge"; "lepton number"; "baryon number"];
        ["name"; "class"; "spin"; "charge"; "lepton number"; "baryon number"];
        ["name"; "class"; "spin"; "lepton number"; "baryon number"];
        ["name"; "spin"];
        ["name"; "class"; "spin"; "lepton number"; "baryon number"];
        ["name"; "spin"]].
Proof. vm_compute. reflexivity. Qed.

(** and after that. *)
Lemma keys_after_antibaryons :
  (Particles ← Particles_after elements 8;
   Some ((λ thing, filter (λ key, is_Some (field Particles thing key)) field_names)
           <$> symbols)) =
  Some [["name"; "class"; "spin"; "charge"; "lepton number"; "baryon number"];
        ["name"; "class"; "spin"; "charge"; "lepton number"; "baryon number"];
        ["name"; "class"; "spin"; "charge"; "lepton number"; "baryon number"];
        ["name"; "class"; "spin"; "charge"; "lepton number"; "baryon number"];
        ["name"; "class"; "spin"; "charge"; "lepton number"; "baryon number"];
        ["name"; "class"; "spin"; "charge"; "lepton number"; "baryon number"];
        ["name"; "class"; "spin"; "charge"; "lepton number"; "baryon number"];
        ["name"; "class"; "spin"; "charge"; "lepton number"; "baryon number"];
        ["name"; "class"; "spin"; "charge"; "lepton number"; "baryon number"];
        ["name"; "class"; "spin"; "charge"; "lepton number"; "baryon number"];
        ["name"; "class"; "spin"; "charge"; "lepton number"; "baryon number"];
        ["name"; "class"; "spin"; "charge"; "lepton number"; "baryon number"];
        ["name"; "class"; "spin"; "lepton number"; "baryon number"];
        ["name"; "class"; "spin"; "lepton number"; "baryon number"];
        ["name"; "class"; "spin"; "lepton number"; "baryon number"];
        ["name"; "class"; "spin"; "lepton number"; "baryon number"]].
Proof. vm_compute. reflexivity. Qed.

(** Reads a table of the sixteen symbols at a point of the build as one
    fact for each symbol. *)
Ltac program_point n table :=
  let T := fresh "T" in
  let Particles := fresh "Particles" in
  generalize table; unfold field_after, keys_after;
  destruct (Particles_after elements n) as [Particles|]; intros T;
  [|discriminate T];
  cbv [mbind option_bind] in T |- *; apply (inj Some) in T;
  cbv [symbols symbols_and_names fmap list_fmap fst] in T;
  explode T; apply (f_equal Some).

(** Settles on which side of [if thing in ...] a given symbol is. *)
Ltac decide_member :=
  first [ rewrite decide_True by member
        | rewrite decide_False by (let H := fresh in intros H; absurd_member H) ].

(** C2, as the specification states it, fails: after the generic passes
    over the classes (the first eight statements), and still when the
    assignment [Particles['p+']['charge'] = 1] is reached (after twelve
    statements), the records of ['p+'] and ['p-'] carry no charge that the
    assignment could replace. *)
Lemma proton_charge_not_set_generically :
  statements elements !! 12%nat = Some set_proton_charge ∧
  proton_charges elements 8 = Some (None, None) ∧
  proton_charges elements 11 = Some (None, None) ∧
  proton_charges elements 12 = Some (None, None).
Proof.
  split; [reflexivity|].
  repeat split; apply no_proton_charge_before; lia.
Qed.

(** C2, amended: the passes over the classes (the fifth to the eighth
    statement) assign a charge to the leptons and the antileptons only.
    No symbol has a charge before them; the loop over the leptons gives
    each lepton its charge, 0 for a neutrino and -1 otherwise, and no one
    else; the loop over the antileptons gives each antilepton its charge,
    0 for an antineutrino and +1 otherwise; the loops over the baryons and
    the antibaryons give the records of ['p+'], ['n'], ['p-'] and
    ['antineutron'] the keys ['class'], ['lepton number'] and
    ['baryon number'] and no charge, and change no key of a lepton or an
    antilepton.  So at every point of the build up to the assignments
    [Particles['p+']['charge'] = 1] and [Particles['p-']['charge'] = -1]
    (the thirteenth and fourteenth statements) the records of the baryons
    and antibaryons, those of ['p+'] and ['p-'] among them, have no
    charge; these two assignments set it, first to +1 for ['p+'], then to
    -1 for ['p-'], and these are the charges in the dictionary returned. *)
Theorem proton_charge_set_once (iter : gset string → list string) :
  walks iter →
  ∃ ls als bs abs nus anus,
    leptons ParticleZoo = Some ls ∧
    antileptons ParticleZoo = Some als ∧
    baryons ParticleZoo = Some bs ∧
    antibaryons ParticleZoo = Some abs ∧
    neutrinos ParticleZoo = Some nus ∧
    antineutrinos ParticleZoo = Some anus ∧
    statements iter !! 4%nat = Some (set_leptons iter) ∧
    statements iter !! 5%nat = Some (set_antileptons iter) ∧
    statements iter !! 6%nat = Some (set_baryons iter) ∧
    statements iter !! 7%nat = Some (set_antibaryons iter) ∧
    (∀ n thing, (n ≤ 4)%nat → thing ∈ ls ∪ als ∪ (bs ∪ abs) →
       field_after iter n thing "charge" = Some None) ∧
    (∀ thing, thing ∈ ls →
       field_after iter 5 thing "charge" =
       Some (Some (PyInt (if decide (thing ∈ nus) then 0 else -1)))) ∧
    (∀ thing, thing ∈ als ∪ (bs ∪ abs) →
       field_after iter 5 thing "charge" = Some None) ∧
    (∀ n thing, (6 ≤ n)%nat → (n ≤ 12)%nat → thing ∈ ls →
       field_after iter n thing "charge" =
       Some (Some (PyInt (if decide (thing ∈ nus) then 0 else -1)))) ∧
    (∀ n thing, (6 ≤ n)%nat → (n ≤ 12)%nat → thing ∈ als →
       field_after iter n thing "charge" =
       Some (Some (PyInt (if decide (thing ∈ anus) then 0 else 1)))) ∧
    (∀ n thing, (n ≤ 12)%nat → thing ∈ bs ∪ abs →
       field_after iter n thing "charge" = Some None) ∧
    (∀ thing, thing ∈ bs ∪ abs →
       keys_after iter 6 thing = Some ["name"; "spin"]) ∧
    (∀ thing, thing ∈ bs →
       keys_after iter 7 thing =
       Some ["name"; "class"; "spin"; "lepton number"; "baryon number"]) ∧
    (∀ thing, thing ∈ abs →
       keys_after iter 7 thing = Some ["name"; "spin"]) ∧
    (∀ thing, thing ∈ bs ∪ abs →
       keys_after iter 8 thing =
       Some ["name"; "class"; "spin"; "lepton number"; "baryon number"]) ∧
    (∀ n thing, (6 ≤ n)%nat → (n ≤ 8)%nat → thing ∈ ls ∪ als →
       keys_after iter n thing =
       Some ["name"; "class"; "spin"; "charge"; "lepton number"; "baryon number"]) ∧
    statements iter !! 12%nat = Some set_proton_charge ∧
    statements iter !! 13%nat = Some set_antiproton_charge ∧
    (∀ n, (n ≤ 12)%nat → proton_charges iter n = Some (None, None)) ∧
    proton_charges iter 13 = Some (Some (PyInt 1), None) ∧
    proton_charges iter 14 = Some (Some (PyInt 1), Some (PyInt (-1))) ∧
    proton_charges iter 18 = Some (Some (PyInt 1), Some (PyInt (-1))) ∧
    Particles_after iter 18 = _create_Particles_dict iter.
Proof.
  intros Hw.
  eexists _, _, _, _, _, _.
  split; [exact leptons_eq|].
  split; [exact antileptons_eq|].
  split; [exact baryons_eq|].
  split; [exact antibaryons_eq|].
  split; [exact neutrinos_eq|].
  split; [exact antineutrinos_eq|].
  do 4 (split; [reflexivity|]).
  split.
  { intros n thing Hn Hthing.
    rewrite (field_after_order iter elements n _ _ Hw walks_elements).
    program_point n (charges_before_leptons n Hn).
    members Hthing; assumption. }
  split.
  { intros thing Hthing.
    rewrite (field_after_order iter elements 5 _ _ Hw walks_elements).
    program_point 5%nat charges_after_leptons.
    members Hthing; decide_member; assumption. }
  split.
  { intros thing Hthing.
    rewrite (field_after_order iter elements 5 _ _ Hw walks_elements).
    program_point 5%nat charges_after_leptons.
    members Hthing; assumption. }
  split.
  { intros n thing Hn Hn' Hthing.
    rewrite (field_after_order iter elements n _ _ Hw walks_elements).
    program_point n (charges_after_antileptons n Hn Hn').
    members Hthing; decide_member; assumption. }
  split.
  { intros n thing Hn Hn' Hthing.
    rewrite (field_after_order iter elements n _ _ Hw walks_elements).
    program_point n (charges_after_antileptons n Hn Hn').
    members Hthing; decide_member; assumption. }
  split.
  { intros n thing Hn Hthing.
    rewrite (field_after_order iter elements n _ _ Hw walks_elements).
    destruct (decide (n ≤ 4)%nat) as [Hn4|Hn4].
    - program_point n (charges_before_leptons n Hn4).
      members Hthing; assumption.
    - destruct (decide (n = 5)) as [->|Hn5].
      + program_point 5%nat charges_after_leptons.
        members Hthing; assumption.
      + assert (6 ≤ n)%nat as Hn6 by lia.
        program_point n (charges_after_antileptons n Hn6 Hn).
        members Hthing; assumption. }
  split.
  { intros thing Hthing.
    rewrite (keys_after_order iter elements 6 _ Hw walks_elements).
    program_point 6%nat keys_before_baryons. members Hthing; assumption. }
  split.
  { intros thing Hthing.
    rewrite (keys_after_order iter elements 7 _ Hw walks_elements).
    program_point 7%nat keys_after_baryons. members Hthing; assumption. }
  split.
  { intros thing Hthing.
    rewrite (keys_after_order iter elements 7 _ Hw walks_elements).
    program_point 7%nat keys_after_baryons. members Hthing; assumption. }
  split.
  { intros thing Hthing.
    rewrite (keys_after_order iter elements 8 _ Hw walks_elements).
    program_point 8%nat keys_after_antibaryons. members Hthing; assumption. }
  split.
  { intros n thing Hn Hn' Hthing.
    rewrite (keys_after_order iter elements n _ Hw walks_elements).
    do 6 (destruct n as [|n]; [lia|]).
    destruct n as [|n]; [program_point 6%nat keys_before_baryons; members Hthing; assumption|].
    destruct n as [|n]; [program_point 7%nat keys_after_baryons; members Hthing; assumption|].
    destruct n as [|n]; [program_point 8%nat keys_after_antibaryons; members Hthing; assumption|].
    lia. }
  split; [reflexivity|]. split; [reflexivity|].
  split.
  { intros n Hn. rewrite (proton_charges_order iter elements n Hw walks_elements).
    apply no_proton_charge_before, Hn. }
  rewrite !(proton_charges_order iter elements _ Hw walks_elements).
  destruct proton_charges_after as (H13 & H14 & H18).
  split; [exact H13|]. split; [exact H14|]. split; [exact H18|].
  reflexivity.
Qed.

Lemma proton_charge_set_once_witness :
  walks elements ∧
  ∃ ls als bs abs nus anus,
    leptons ParticleZoo = Some ls ∧
    antileptons ParticleZoo = Some als ∧
    baryons ParticleZoo = Some bs ∧
    antibaryons ParticleZoo = Some abs ∧
    neutrinos ParticleZoo = Some nus ∧
    antineutrinos ParticleZoo = Some anus ∧
    statements elements !! 4%nat = Some (set_leptons elements) ∧
    statements elements !! 5%nat = Some (set_antileptons elements) ∧
    statements elements !! 6%nat = Some (set_baryons elements) ∧
    statements elements !! 7%nat = Some (set_antibaryons elements) ∧
    (∀ n thing, (n ≤ 4)%nat → thing ∈ ls ∪ als ∪ (bs ∪ abs) →
       field_after elements n thing "charge" = Some None) ∧
    (∀ thing, thing ∈ ls →
       field_after elements 5 thing "charge" =
       Some (Some (PyInt (if decide (thing ∈ nus) then 0 else -1)))) ∧
    (∀ thing, thing ∈ als ∪ (bs ∪ abs) →
       field_after elements 5 thing "charge" = Some None) ∧
    (∀ n thing, (6 ≤ n)%nat → (n ≤ 12)%nat → thing ∈ ls →
       field_after elements n thing "charge" =
       Some (Some (PyInt (if decide (thing ∈ nus) then 0 else -1)))) ∧
    (∀ n thing, (6 ≤ n)%nat → (n ≤ 12)%nat → thing ∈ als →
       field_after elements n thing "charge" =
       Some (Some (PyInt (if decide (thing ∈ anus) then 0 else 1)))) ∧
    (∀ n thing, (n ≤ 12)%nat → thing ∈ bs ∪ abs →
       field_after elements n thing "charge" = Some None) ∧
    (∀ thing, thing ∈ bs ∪ abs →
       keys_after elements 6 thing = Some ["name"; "spin"]) ∧
    (∀ thing, thing ∈ bs →
       keys_after elements 7 thing =
       Some ["name"; "class"; "spin"; "lepton number"; "baryon number"]) ∧
    (∀ thing, thing ∈ abs →
       keys_after elements 7 thing = Some ["name"; "spin"]) ∧
    (∀ thing, thing ∈ bs ∪ abs →
       keys_after elements 8 thing =
       Some ["name"; "class"; "spin"; "lepton number"; "baryon number"]) ∧
    (∀ n thing, (6 ≤ n)%nat → (n ≤ 8)%nat → thing ∈ ls ∪ als →
       keys_after elements n thing =
       Some ["name"; "class"; "spin"; "charge"; "lepton number"; "baryon number"]) ∧
    statements elements !! 12%nat = Some set_proton_charge ∧
    statements elements !! 13%nat = Some set_antiproton_charge ∧
    (∀ n, (n ≤ 12)%nat → proton_charges elements n = Some (None, None)) ∧
    proton_charges elements 13 = Some (Some (PyInt 1), None) ∧
    proton_charges elements 14 = Some (Some (PyInt 1), Some (PyInt (-1))) ∧
    proton_charges elements 18 = Some (Some (PyInt 1), Some (PyInt (-1))) ∧
    Particles_after elements 18 = _create_Particles_dict elements.
Proof.
  split.
  - intros X. reflexivity.
  - apply (proton_charge_set_once elements). intros X. reflexivity.
Defined.

(** ** The taxonomy *)

(** C3: the keys of [_taxonomy_dict] as the code builds it.  Nine of the
    ten names of the classifications are keys; the tenth key is
    ['antineutrinos'], in the plural, and ['antineutrino'] is no key. *)
Theorem taxonomy_keys :
  (∀ key, key ∈ dom (_taxonomy_dict ParticleZoo) ↔
     key ∈ ["lepton"; "antilepton"; "baryon"; "antibaryon"; "fermion"; "boson";
            "neutrino"; "antineutrinos"; "matter"; "antimatter"]) ∧
  _taxonomy_dict ParticleZoo !! "antineutrino" = None ∧
  _taxonomy_dict ParticleZoo !! "antineutrinos" =
    Some (set_literal ["anti_nu_e"; "anti_nu_mu"; "anti_nu_tau"]) ∧
  is_Some (antineutrinos ParticleZoo).
Proof.
  split; [|split; [reflexivity|split; [exact antineutrinos_eq|]]].
  - intros key.
    cbv [ParticleZoo __init__ _taxonomy_dict dict_literal foldl fst snd].
    rewrite !dom_insert_L, dom_empty_L.
    rewrite !elem_of_union, !elem_of_singleton, !elem_of_cons, elem_of_nil.
    rewrite elem_of_empty. tauto.
  - rewrite antineutrinos_eq. eexists. reflexivity.
Qed.

(** C6: matter and antimatter are disjoint, and each symbol of
    [everything] is in exactly one of them; the fermions are the leptons,
    antileptons, baryons and antibaryons together; the neutrinos are
    leptons and the antineutrinos antileptons; there is no boson, so the
    bosons are disjoint from every other class. *)
Theorem taxonomy_relations :
  ∃ ls als bs abs fs bos nus anus matter antimatter things,
    leptons ParticleZoo = Some ls ∧
    antileptons ParticleZoo = Some als ∧
    baryons ParticleZoo = Some bs ∧
    antibaryons ParticleZoo = Some abs ∧
    fermions ParticleZoo = Some fs ∧
    bosons ParticleZoo = Some bos ∧
    neutrinos ParticleZoo = Some nus ∧
    antineutrinos ParticleZoo = Some anus ∧
    particles ParticleZoo = Some matter ∧
    antiparticles ParticleZoo = Some antimatter ∧
    everything ParticleZoo = Some things ∧
    matter ## antimatter ∧
    things = matter ∪ antimatter ∧
    (∀ thing, thing ∈ things →
       (thing ∈ matter ∧ thing ∉ antimatter) ∨
       ((thing ∉ matter) ∧ thing ∈ antimatter)) ∧
    fs = ls ∪ als ∪ bs ∪ abs ∧
    nus ⊆ ls ∧
    anus ⊆ als ∧
    bos = ∅ ∧
    Forall (λ class, bos ## class) [ls; als; bs; abs; fs; nus; anus; matter; antimatter].
Proof.
  eexists _, _, _, _, _, _, _, _, _, _, _.
  split; [exact leptons_eq|].
  split; [exact antileptons_eq|].
  split; [exact baryons_eq|].
  split; [exact antibaryons_eq|].
  split; [exact fermions_eq|].
  split; [exact bosons_eq|].
  split; [exact neutrinos_eq|].
  split; [exact antineutrinos_eq|].
  split; [exact particles_eq|].
  split; [exact antiparticles_eq|].
  split; [exact everything_eq|].
  assert (Hdisjoint :
    set_literal ["e-"; "mu-"; "tau-"; "nu_e"; "nu_mu"; "nu_tau"] ∪
    set_literal ["p+"; "n"] ##
    set_literal ["e+"; "mu+"; "tau+"; "anti_nu_e"; "anti_nu_mu"; "anti_nu_tau"] ∪
    set_literal ["p-"; "antineutron"]).
  { apply elem_of_disjoint. intros thing Hm Ha. members Hm; absurd_member Ha. }
  split; [exact Hdisjoint|].
  split; [reflexivity|].
  split.
  { intros thing Hthing. rewrite elem_of_union in Hthing.
    destruct Hthing as [Hm|Ha].
    - left. split; [exact Hm|]. intros Ha.
      exact (proj1 (elem_of_disjoint _ _) Hdisjoint thing Hm Ha).
    - right. split; [|exact Ha]. intros Hm.
      exact (proj1 (elem_of_disjoint _ _) Hdisjoint thing Hm Ha). }
  split; [reflexivity|].
  split; [apply elem_of_subseteq; intros thing Hthing; members Hthing; member|].
  split; [apply elem_of_subseteq; intros thing Hthing; members Hthing; member|].
  split; [reflexivity|].
  repeat lazymatch goal with
  | |- Forall _ (_ :: _) => constructor
  | |- Forall _ [] => constructor
  end.
  all: apply disjoint_empty_l.
Qed.

(** ** Further properties of the registry *)

(** Every fermion has the spin 0.5, and every lepton the lepton number 1
    and the baryon number 0. *)
Theorem fermion_spins_and_lepton_numbers (iter : gset string → list string) :
  walks iter →
  ∃ fs ls Particles,
    fermions ParticleZoo = Some fs ∧
    leptons ParticleZoo = Some ls ∧
    _create_Particles_dict iter = Some Particles ∧
    (∀ thing, thing ∈ fs → field Particles thing "spin" = Some (PyFloat 0.5)) ∧
    (∀ thing, thing ∈ ls →
       field Particles thing "lepton number" = Some (PyInt 1) ∧
       field Particles thing "baryon number" = Some (PyInt 0)).
Proof.
  intros Hw. registry Hw Particles.
  eexists _, _, Particles.
  split; [exact fermions_eq|].
  split; [exact leptons_eq|].
  split; [reflexivity|].
  split.
  - intros thing Hthing. members Hthing; assumption.
  - intros thing Hthing. members Hthing; split; assumption.
Qed.

Lemma fermion_spins_and_lepton_numbers_witness :
  walks elements ∧
  ∃ fs ls Particles,
    fermions ParticleZoo = Some fs ∧
    leptons ParticleZoo = Some ls ∧
    _create_Particles_dict elements = Some Particles ∧
    (∀ thing, thing ∈ fs → field Particles thing "spin" = Some (PyFloat 0.5)) ∧
    (∀ thing, thing ∈ ls →
       field Particles thing "lepton number" = Some (PyInt 1) ∧
       field Particles thing "baryon number" = Some (PyInt 0)).
Proof.
  split.
  - intros X. reflexivity.
  - apply (fermion_spins_and_lepton_numbers elements). intros X. reflexivity.
Defined.

(** The record of the electron, field by field. *)
Theorem electron_record (iter : gset string → list string) :
  walks iter →
  ∃ Particles,
    _create_Particles_dict iter = Some Particles ∧
    row Particles "e-" =
      [Some (PyStr "electron"); Some (PyStr "lepton"); Some (PyFloat 0.5);
       Some (PyInt (-1)); Some (PyInt 1); Some (PyInt 0); Some (PyInt 1);
       Some (PyQuantity (Const const.m_e)); Some (PyQuantity (Mul np.inf u.s));
       Some (PyBool false)].
Proof.
  intros Hw. registry Hw Particles.
  exists Particles. split; [reflexivity|].
  cbv [row field_names fmap list_fmap].
  repeat lazymatch goal with
  | |- _ :: _ = _ :: _ => apply (f_equal2 cons); [assumption|]
  end.
  reflexivity.
Qed.

Lemma electron_record_witness :
  walks elements ∧
  ∃ Particles,
    _create_Particles_dict elements = Some Particles ∧
    row Particles "e-" =
      [Some (PyStr "electron"); Some (PyStr "lepton"); Some (PyFloat 0.5);
       Some (PyInt (-1)); Some (PyInt 1); Some (PyInt 0); Some (PyInt 1);
       Some (PyQuantity (Const const.m_e)); Some (PyQuantity (Mul np.inf u.s));
       Some (PyBool false)].
Proof.
  split.
  - intros X. reflexivity.
  - apply (electron_record elements). intros X. reflexivity.
Defined.

(** At every point of the body of [_create_Particles_dict], the dictionary
    built so far does not depend on the orders in which the loops walked
    their sets. *)
Theorem order_irrelevant_at_every_point (iter1 iter2 : gset string → list string) :
  walks iter1 → walks iter2 →
  ∀ n, Particles_after iter1 n = Particles_after iter2 n.
Proof. intros H1 H2 n. apply Particles_after_order; assumption. Qed.

Lemma order_irrelevant_at_every_point_witness :
  walks elements ∧ walks (λ X, reverse (elements X)) ∧
  ∀ n, Particles_after elements n = Particles_after (λ X, reverse (elements X)) n.
Proof.
  split; [|split].
  - intros X. reflexivity.
  - intros X. apply reverse_Permutation.
  - apply (order_irrelevant_at_every_point elements (λ X, reverse (elements X))).
    + intros X. reflexivity.
    + intros X. apply reverse_Permutation.
Defined.

(** ** Invariants of the statements *)

Lemma keeps_ret {A} I (a : A) : keeps I (mret a).
Proof. intros P a' P' HI H. injection H as _ <-. exact HI. Qed.

Lemma keeps_evaluate {A} I (o : option A) : keeps I (evaluate o).
Proof.
  intros P a P' HI H. unfold evaluate in H.
  destruct o; [|discriminate H]. injection H as _ <-. exact HI.
Qed.

Lemma keeps_has_key I thing key : keeps I (has_key thing key).
Proof.
  intros P a P' HI H. unfold has_key in H.
  destruct (P !! thing); [|discriminate H]. injection H as _ <-. exact HI.
Qed.

Lemma keeps_bind {A B} I (m : Build A) (k : A → Build B) :
  keeps I m → (∀ a, keeps I (k a)) → keeps I (m ≫= k).
Proof.
  intros Hm Hk P b P' HI H. unfold mbind, Build_bind in H.
  destruct (m P) as [[a P1]|] eqn:E; [|discriminate H].
  exact (Hk a P1 b P' (Hm P a P1 HI E) H).
Qed.

Lemma keeps_if {A} I (b : bool) (m1 m2 : Build A) :
  keeps I m1 → keeps I m2 → keeps I (if b then m1 else m2).
Proof. destruct b; auto. Qed.

Lemma keeps_for {A} I (l : list A) (body : A → Build unit) :
  (∀ x, x ∈ l → keeps I (body x)) → keeps I (for_ l body).
Proof.
  induction l as [|x l IH]; intros Hbody; simpl.
  - apply keeps_ret.
  - apply keeps_bind.
    + apply Hbody. apply list_elem_of_here.
    + intros _. apply IH. intros y Hy. apply Hbody.
      apply list_elem_of_further, Hy.
Qed.

Lemma keeps_block I (stmts : list (Build unit)) :
  Forall (keeps I) stmts → keeps I (block stmts).
Proof.
  induction 1 as [|m stmts Hm _ IH]; simpl.
  - apply keeps_ret.
  - apply keeps_bind; [exact Hm | intros _; exact IH].
Qed.

(** An assignment to one of the ten keys of a record that is there keeps
    the shape of the registry. *)
Lemma keeps_setitem things thing key value :
  key ∈ field_names → keeps (registry_shape things) (setitem thing key value).
Proof.
  intros Hkey P a P' [Hdom Hkeys] H. unfold setitem in H.
  destruct (P !! thing) as [d|] eqn:E; [|discriminate H].
  injection H as _ <-. split.
  - intros t. rewrite lookup_insert_is_Some, <- Hdom.
    destruct (decide (thing = t)) as [<-|Hne]; [|tauto].
    rewrite E. split; eauto.
  - intros t k. unfold field. destruct (decide (thing = t)) as [<-|Hne].
    + rewrite lookup_insert_eq. simpl. rewrite lookup_insert_is_Some.
      intros [<-|[_ Hk]]; [exact Hkey|].
      apply (Hkeys thing k). unfold field. rewrite E. exact Hk.
    + rewrite lookup_insert_ne by exact Hne. apply (Hkeys t k).
Qed.

(** ** The fields, statement by statement *)

(** The tables of the fields after 0, 1, ..., 18 statements: from one to
    the next no field that was set changes or disappears. *)
Lemma snapshots_elements :
  ∃ tables : list (list (list (option PyValue))),
    length tables = 19%nat ∧
    (∀ n table, tables !! n = Some table → snapshot elements n = Some table) ∧
    (∀ n before after,
       tables !! n = Some before → tables !! S n = Some after →
       Forall2 (Forall2 kept) before after).
Proof.
  eexists [_; _; _; _; _; _; _; _; _; _; _; _; _; _; _; _; _; _; _].
  split; [reflexivity|]. split.
  - intros n table H.
    do 19 (destruct n as [|n];
           [apply (inj Some) in H; subst table; vm_compute; reflexivity|]).
    discriminate H.
  - intros n before after H H'.
    do 18 (destruct n as [|n];
           [apply (inj Some) in H; apply (inj Some) in H'; subst before after;
            repeat lazymatch goal with
            | |- Forall2 _ (_ :: _) (_ :: _) => constructor
            | |- Forall2 _ [] [] => constructor
            | |- kept None _ => left; reflexivity
            | |- kept (Some _) _ => right; reflexivity
            end|]).
    discriminate H'.
Qed.

Create HintDb keeps.
#[export] Hint Resolve keeps_ret keeps_evaluate keeps_has_key keeps_if : keeps.
#[export] Hint Extern 2 (keeps _ (_ ≫= _)) =>
  apply keeps_bind; [|intros ?] : keeps.
#[export] Hint Extern 2 (keeps _ (for_ _ _)) =>
  apply keeps_for; intros ? _ : keeps.
#[export] Hint Extern 1 (keeps (registry_shape _) (setitem _ _ _)) =>
  apply keeps_setitem; unfold field_names; member : keeps.

(** Every statement after the first keeps the shape of the registry: it
    makes no record, drops none, and sets no key but the ten. *)
Lemma statements_keep_shape iter things :
  Forall (keeps (registry_shape things)) (drop 1 (statements iter)).
Proof.
  unfold statements. cbn [drop].
  repeat lazymatch goal with
  | |- Forall _ (_ :: _) => constructor
  | |- Forall _ [] => constructor
  end.
  - unfold set_names. apply keeps_for. intros [symbol name] _.
    eauto with keeps.
  - unfold set_fermion_spins. eauto 10 with keeps.
  - unfold set_boson_spins. eauto 10 with keeps.
  - unfold set_leptons. eauto 20 with keeps.
  - unfold set_antileptons. eauto 20 with keeps.
  - unfold set_baryons. eauto 20 with keeps.
  - unfold set_antibaryons. eauto 20 with keeps.
  - unfold set_generations, set_generation. eauto 20 with keeps.
  - unfold set_lepton_masses. eauto 20 with keeps.
  - unfold set_neutrino_masses. eauto 20 with keeps.
  - unfold set_proton_masses. eauto 20 with keeps.
  - unfold set_proton_charge. eauto with keeps.
  - unfold set_antiproton_charge. eauto with keeps.
  - unfold set_neutrons. eauto 20 with keeps.
  - unfold set_stable_half_lives. eauto 20 with keeps.
  - unfold set_matter. eauto 20 with keeps.
  - unfold set_antimatter. eauto 20 with keeps.
Qed.

(** The first loop makes an empty record for each member of the list and
    leaves the other records alone. *)
Lemma for_new_dict (l : list string) (Particles : ParticlesDict) :
  ∃ Particles',
    for_ l (λ thing, new_dict thing) Particles = Some (tt, Particles') ∧
    ∀ thing, Particles' !! thing =
             if decide (thing ∈ l) then Some ∅ else Particles !! thing.
Proof.
  revert Particles. induction l as [|x l IH]; intros P; simpl.
  - exists P. split; [reflexivity|]. intros t.
    destruct (decide (t ∈ [])) as [H|_]; [|reflexivity].
    apply elem_of_nil in H. destruct H.
  - destruct (IH (<[x:=∅]> P)) as (P' & E & Hl).
    exists P'. split.
    + unfold mbind, Build_bind, new_dict. exact E.
    + intros t. rewrite Hl.
      destruct (decide (t ∈ l)) as [Hin|Hnin].
      * rewrite decide_True; [reflexivity|]. apply list_elem_of_further, Hin.
      * destruct (decide (t = x)) as [->|Hne].
        -- rewrite lookup_insert_eq, decide_True; [reflexivity|].
           apply list_elem_of_here.
        -- rewrite lookup_insert_ne by congruence.
           rewrite decide_False; [reflexivity|].
           rewrite elem_of_cons. tauto.
Qed.

(** After the first statement the records are those of [everything], all
    empty. *)
Lemma create_dicts_shape iter things :
  walks iter → everything ParticleZoo = Some things →
  ∃ Particles,
    create_dicts iter ∅ = Some (tt, Particles) ∧
    registry_shape things Particles.
Proof.
  intros Hw Hthings. unfold create_dicts. rewrite Hthings.
  destruct (for_new_dict (iter things) ∅) as (P & E & Hl).
  exists P. split; [exact E|]. split.
  - intros t. rewrite Hl, <- elem_of_elements, <- (Hw things).
    destruct (decide (t ∈ iter things)) as [Hin|Hnin].
    + split; eauto.
    + rewrite lookup_empty. split; [intros [d Hd]; discriminate Hd | tauto].
  - intros t k. unfold field. rewrite Hl, lookup_empty.
    destruct (decide (t ∈ iter things)); simpl.
    + rewrite lookup_empty. intros [v Hv]. discriminate Hv.
    + intros [v Hv]. discriminate Hv.
Qed.

Lemma Particles_after_S iter n :
  Particles_after iter (S n) =
  match create_dicts iter ∅ with
  | Some (_, Particles) =>
      exec (block (take n (drop 1 (statements iter)))) Particles
  | None => None
  end.
Proof.
  unfold Particles_after, exec, statements. cbn [take drop block].
  unfold mbind at 1. unfold Build_bind at 1.
  destruct (create_dicts iter ∅) as [[[] P]|]; reflexivity.
Qed.

(** The shape holds at every point of the body after the first statement. *)
Lemma Particles_after_shape iter things n Particles :
  walks iter → everything ParticleZoo = Some things →
  Particles_after iter (S n) = Some Particles →
  registry_shape things Particles.
Proof.
  intros Hw Hthings. rewrite Particles_after_S.
  destruct (create_dicts_shape iter things Hw Hthings) as (P1 & E & Hshape).
  rewrite E. unfold exec.
  destruct (block (take n (drop 1 (statements iter))) P1) as [[[] P]|] eqn:Eb;
    [|discriminate].
  intros H. injection H as <-.
  eapply keeps_block; [|exact Hshape|exact Eb].
  apply Forall_take, statements_keep_shape.
Qed.

(** The symbols of [symbols_and_names] are the members of [everything]. *)
Lemma elem_of_everything things thing :
  everything ParticleZoo = Some things → thing ∈ things ↔ thing ∈ symbols.
Proof.
  rewrite everything_eq. intros H. apply (inj Some) in H. subst things.
  cbv [symbols symbols_and_names fmap list_fmap fst].
  split; intros H; members H; member.
Qed.

Lemma Forall2_fmap_same {A B} (R : B → B → Prop) (f g : A → B) (l : list A) x :
  Forall2 R (f <$> l) (g <$> l) → x ∈ l → R (f x) (g x).
Proof.
  induction l as [|y l IH]; intros HR Hx.
  - apply elem_of_nil in Hx. destruct Hx.
  - apply Forall2_cons in HR as [Hy HR].
    apply elem_of_cons in Hx as [->|Hx]; [exact Hy | exact (IH HR Hx)].
Qed.

Lemma Particles_after_ge iter n :
  (18 ≤ n)%nat → Particles_after iter n = Particles_after iter 18.
Proof.
  intros Hn. unfold Particles_after.
  rewrite !take_ge; [reflexivity | reflexivity | exact Hn].
Qed.

(** No statement raises. *)
Lemma Particles_after_is_Some n : is_Some (Particles_after elements n).
Proof.
  assert (H18 : ∀ k, (k ≤ 18)%nat → is_Some (Particles_after elements k)).
  { intros k Hk. destruct snapshots_elements as (tables & Hlen & Hsnap & _).
    destruct (lookup_lt_is_Some_2 tables k) as [table Ht]; [lia|].
    specialize (Hsnap k table Ht). unfold snapshot in Hsnap.
    destruct (Particles_after elements k); [eauto | discriminate Hsnap]. }
  destruct (decide (n ≤ 18)%nat) as [Hn|Hn]; [exact (H18 n Hn)|].
  rewrite Particles_after_ge by lia. apply H18. lia.
Qed.

(** A field that is set at some point of the body belongs to a symbol of
    the table and is one of the ten. *)
Lemma field_on_grid n Particles thing key :
  Particles_after elements n = Some Particles →
  is_Some (field Particles thing key) →
  thing ∈ symbols ∧ key ∈ field_names.
Proof.
  destruct n as [|n]; intros HP Hfield.
  - injection HP as <-. unfold field in Hfield.
    rewrite lookup_empty in Hfield. destruct Hfield as [v Hv]. discriminate Hv.
  - destruct (Particles_after_shape elements _ n Particles
                walks_elements everything_eq HP) as [Hdom Hkeys].
    split; [|exact (Hkeys thing key Hfield)].
    apply (elem_of_everything _ thing everything_eq), Hdom.
    exact (field_is_Some_record _ _ _ Hfield).
Qed.

(** From one statement to the next no field changes once it is set. *)
Lemma field_kept_step n before after thing key :
  Particles_after elements n = Some before →
  Particles_after elements (S n) = Some after →
  kept (field before thing key) (field after thing key).
Proof.
  intros Hb Ha.
  destruct (field before thing key) as [v|] eqn:Ev; [|left; reflexivity].
  rewrite <- Ev.
  destruct (field_on_grid n before thing key Hb) as [Hthing Hkey];
    [rewrite Ev; eauto|].
  destruct (decide (n < 18)%nat) as [Hn|Hn].
  - destruct snapshots_elements as (tables & Hlen & Hsnap & Hstep).
    destruct (lookup_lt_is_Some_2 tables n) as [tb Htb]; [lia|].
    destruct (lookup_lt_is_Some_2 tables (S n)) as [ta Hta]; [lia|].
    specialize (Hstep n tb ta Htb Hta).
    pose proof (Hsnap n tb Htb) as Sb. pose proof (Hsnap (S n) ta Hta) as Sa.
    unfold snapshot in Sb, Sa. rewrite Hb in Sb. rewrite Ha in Sa.
    apply (inj Some) in Sb. apply (inj Some) in Sa. subst tb ta.
    pose proof (Forall2_fmap_same _ _ _ _ thing Hstep Hthing) as Hrow.
    exact (Forall2_fmap_same _ _ _ _ key Hrow Hkey).
  - right. rewrite (Particles_after_ge elements n) in Hb by lia.
    rewrite (Particles_after_ge elements (S n)) in Ha by lia.
    congruence.
Qed.

(** From the second statement on, at every point of the body, the records
    of [Particles] are exactly those of the members of [everything]: no
    later statement makes or drops a record, so a symbol outside
    [everything] has no record, in the dictionary returned either. *)
Theorem records_are_everything (iter : gset string → list string) :
  walks iter →
  ∀ n, (1 ≤ n)%nat →
  ∃ things Particles,
    everything ParticleZoo = Some things ∧
    Particles_after iter n = Some Particles ∧
    (∀ thing, is_Some (Particles !! thing) ↔ thing ∈ things) ∧
    (∀ thing, thing ∉ things → Particles !! thing = None) ∧
    (n = 18%nat → _create_Particles_dict iter = Some Particles).
Proof.
  intros Hw n Hn. destruct n as [|n]; [lia|].
  destruct (Particles_after_is_Some (S n)) as [P HP].
  rewrite <- (Particles_after_order iter elements (S n) Hw walks_elements) in HP.
  destruct (Particles_after_shape iter _ n P Hw everything_eq HP) as [Hdom _].
  eexists _, P. split; [exact everything_eq|]. split; [exact HP|].
  split; [exact Hdom|]. split.
  - intros thing Hthing. destruct (P !! thing) as [d|] eqn:E; [|reflexivity].
    destruct Hthing. apply Hdom. eauto.
  - intros E. rewrite E in HP. exact HP.
Qed.

Lemma records_are_everything_witness :
  walks elements ∧
  ∀ n, (1 ≤ n)%nat →
  ∃ things Particles,
    everything ParticleZoo = Some things ∧
    Particles_after elements n = Some Particles ∧
    (∀ thing, is_Some (Particles !! thing) ↔ thing ∈ things) ∧
    (∀ thing, thing ∉ things → Particles !! thing = None) ∧
    (n = 18%nat → _create_Particles_dict elements = Some Particles).
Proof.
  split.
  - intros X. reflexivity.
  - apply (records_are_everything elements). intros X. reflexivity.
Defined.

(** In the dictionary returned, the keys of the record of a lepton or an
    antilepton are exactly the ten field names, the keys of the record of a
    baryon or an antibaryon exactly the nine other than ['generation'], and
    no record has any other key. *)
Theorem record_keys (iter : gset string → list string) :
  walks iter →
  ∃ ls als bs abs Particles,
    leptons ParticleZoo = Some ls ∧
    antileptons ParticleZoo = Some als ∧
    baryons ParticleZoo = Some bs ∧
    antibaryons ParticleZoo = Some abs ∧
    _create_Particles_dict iter = Some Particles ∧
    (∀ thing key, is_Some (field Particles thing key) → key ∈ field_names) ∧
    (∀ thing, thing ∈ ls ∪ als →
       ∀ key, is_Some (field Particles thing key) ↔ key ∈ field_names) ∧
    (∀ thing, thing ∈ bs ∪ abs →
       ∀ key, is_Some (field Particles thing key) ↔ key ∈ common_field_names).
Proof.
  intros Hw.
  assert (Hshape : ∀ P, _create_Particles_dict elements = Some P →
                        ∀ thing key, is_Some (field P thing key) → key ∈ field_names).
  { intros P HP.
    exact (proj2 (Particles_after_shape elements _ 17 P
                    walks_elements everything_eq HP)). }
  revert Hshape. registry Hw Particles. intros Hshape.
  specialize (Hshape Particles eq_refl).
  eexists _, _, _, _, Particles.
  split; [exact leptons_eq|]. split; [exact antileptons_eq|].
  split; [exact baryons_eq|]. split; [exact antibaryons_eq|].
  split; [reflexivity|]. split; [exact Hshape|]. split.
  - intros thing Hthing key. split; [apply Hshape|].
    intros Hkey. unfold field_names in Hkey.
    members Hthing; members Hkey; eexists; eassumption.
  - intros thing Hthing key. split.
    + intros Hsome. pose proof (Hshape thing key Hsome) as Hkey.
      unfold field_names in Hkey. unfold common_field_names.
      members Hthing; members Hkey; first [member | destruct Hsome; congruence].
    + intros Hkey. unfold common_field_names in Hkey.
      members Hthing; members Hkey; eexists; eassumption.
Qed.

Lemma record_keys_witness :
  walks elements ∧
  ∃ ls als bs abs Particles,
    leptons ParticleZoo = Some ls ∧
    antileptons ParticleZoo = Some als ∧
    baryons ParticleZoo = Some bs ∧
    antibaryons ParticleZoo = Some abs ∧
    _create_Particles_dict elements = Some Particles ∧
    (∀ thing key, is_Some (field Particles thing key) → key ∈ field_names) ∧
    (∀ thing, thing ∈ ls ∪ als →
       ∀ key, is_Some (field Particles thing key) ↔ key ∈ field_names) ∧
    (∀ thing, thing ∈ bs ∪ abs →
       ∀ key, is_Some (field Particles thing key) ↔ key ∈ common_field_names).
Proof.
  split.
  - intros X. reflexivity.
  - apply (record_keys elements). intros X. reflexivity.
Defined.

(** A value that a field has at one point of the body is the value it has
    at every later point and in the dictionary returned: no statement
    changes or removes what an earlier statement has set. *)
Theorem fields_never_overwritten (iter : gset string → list string) :
  walks iter →
  ∀ n m, (n ≤ m)%nat →
  ∃ before after,
    Particles_after iter n = Some before ∧
    Particles_after iter m = Some after ∧
    ∀ thing key value,
      field before thing key = Some value → field after thing key = Some value.
Proof.
  intros Hw n m Hnm.
  rewrite !(Particles_after_order iter elements _ Hw walks_elements).
  induction Hnm as [|m Hnm IH].
  - destruct (Particles_after_is_Some n) as [P HP].
    exists P, P. auto.
  - destruct IH as (before & mid & Hb & Hm & Hkeep).
    destruct (Particles_after_is_Some (S m)) as [after Ha].
    exists before, after. split; [exact Hb|]. split; [exact Ha|].
    intros thing key value Hv. specialize (Hkeep thing key value Hv).
    destruct (field_kept_step m mid after thing key Hm Ha) as [H|H];
      congruence.
Qed.

Lemma fields_never_overwritten_witness :
  walks elements ∧
  ∀ n m, (n ≤ m)%nat →
  ∃ before after,
    Particles_after elements n = Some before ∧
    Particles_after elements m = Some after ∧
    ∀ thing key value,
      field before thing key = Some value → field after thing key = Some value.
Proof.
  split.
  - intros X. reflexivity.
  - apply (fields_never_overwritten elements). intros X. reflexivity.
Defined.

(** ** The table of names *)

(** The table [symbols_and_names] and the taxonomy agree: the table lists
    each member of [everything] once and nothing else, so the loop over the
    table finds a record for each of its symbols, and in the dictionary
    returned each symbol has the name the table pairs it with. *)
Theorem names_from_table (iter : gset string → list string) :
  walks iter →
  ∃ things Particles,
    everything ParticleZoo = Some things ∧
    _create_Particles_dict iter = Some Particles ∧
    NoDup symbols ∧
    (∀ thing, thing ∈ things ↔ thing ∈ symbols) ∧
    (∀ symbol name, (symbol, name) ∈ symbols_and_names →
       field Particles symbol "name" = Some (PyStr name)) ∧
    (∀ thing, thing ∈ things →
       ∃ name, (thing, name) ∈ symbols_and_names ∧
               field Particles thing "name" = Some (PyStr name)).
Proof.
  intros Hw. registry Hw Particles.
  eexists _, Particles. split; [exact everything_eq|]. split; [reflexivity|].
  split; [by_computation|].
  split; [intros thing; exact (elem_of_everything _ thing everything_eq)|].
  split.
  - intros symbol name Hin. unfold symbols_and_names in Hin.
    repeat (apply elem_of_cons in Hin as [Hin|Hin];
            [injection Hin as -> ->; assumption|]).
    apply elem_of_nil in Hin. destruct Hin.
  - intros thing Hthing. unfold symbols_and_names.
    members Hthing; eexists; (split; [|eassumption]);
      repeat first [apply list_elem_of_here | apply list_elem_of_further].
Qed.

Lemma names_from_table_witness :
  walks elements ∧
  ∃ things Particles,
    everything ParticleZoo = Some things ∧
    _create_Particles_dict elements = Some Particles ∧
    NoDup symbols ∧
    (∀ thing, thing ∈ things ↔ thing ∈ symbols) ∧
    (∀ symbol name, (symbol, name) ∈ symbols_and_names →
       field Particles symbol "name" = Some (PyStr name)) ∧
    (∀ thing, thing ∈ things →
       ∃ name, (thing, name) ∈ symbols_and_names ∧
               field Particles thing "name" = Some (PyStr name)).
Proof.
  split.
  - intros X. reflexivity.
  - apply (names_from_table elements). intros X. reflexivity.
Defined.

Lemma for_setitem_names (l : list (string * string)) (Particles : ParticlesDict) :
  is_Some (for_ l (λ '(symbol, name), setitem symbol "name" (PyStr name)) Particles) ↔
  ∀ symbol, symbol ∈ l.*1 → is_Some (Particles !! symbol).
Proof.
  revert Particles. induction l as [|[symbol name] l IH]; intros P; simpl.
  - split; [|eauto]. intros _ s Hs. apply elem_of_nil in Hs. destruct Hs.
  - unfold mbind, Build_bind, setitem.
    destruct (P !! symbol) as [d|] eqn:E.
    + rewrite IH. split.
      * intros H s Hs. apply elem_of_cons in Hs as [->|Hs]; [rewrite E; eauto|].
        specialize (H s Hs). rewrite lookup_insert_is_Some in H.
        destruct H as [<-|[_ H]]; [rewrite E; eauto | exact H].
      * intros H s Hs. rewrite lookup_insert_is_Some.
        destruct (decide (symbol = s)) as [Heq|Hne]; [left; exact Heq|].
        right. split; [exact Hne|]. apply H, list_elem_of_further, Hs.
    + split; [intros [x Hx]; discriminate Hx|].
      intros H. specialize (H symbol (list_elem_of_here _ _)).
      rewrite E in H. destruct H as [x Hx]. discriminate Hx.
Qed.

(** The loop over the table of names returns exactly when every symbol of
    the table has a record: if one is missing, the assignment
    [Particles[symbol]['name'] = name] raises [KeyError]; so it does on the
    empty dictionary. *)
Theorem set_names_needs_records :
  (∀ Particles : ParticlesDict,
     is_Some (set_names Particles) ↔
     ∀ symbol, symbol ∈ symbols → is_Some (Particles !! symbol)) ∧
  set_names ∅ = None.
Proof.
  split; [|reflexivity].
  intros P. unfold set_names, symbols. apply for_setitem_names.
Qed.

(** ** The substring test *)

Lemma prefix_iff (sub str : string) :
  String.prefix sub str = true ↔ ∃ after, str = sub +:+ after.
Proof.
  revert str. induction sub as [|a sub IH]; intros str.
  - destruct str; simpl; split; eauto.
  - destruct str as [|b str]; cbn [String.prefix].
    + split; [discriminate|]. intros [after H]. discriminate H.
    + destruct (Ascii.ascii_dec a b) as [<-|Hne].
      * rewrite (IH str). split; intros [after H]; exists after.
        -- simpl. rewrite H. reflexivity.
        -- simpl in H. injection H as H. exact H.
      * split; [discriminate|]. intros [after H]. simpl in H.
        injection H as H _. congruence.
Qed.

Lemma contains_iff (sub str : string) :
  contains sub str = true ↔ ∃ before after, str = before +:+ sub +:+ after.
Proof.
  induction str as [|c rest IH]; cbn [contains]; rewrite orb_true_iff.
  - split.
    + intros [H|H]; [|discriminate H].
      apply prefix_iff in H as [after H]. exists "", after. exact H.
    + intros (before & after & H). left. apply prefix_iff.
      destruct before; [|discriminate H]. exists after. exact H.
  - rewrite IH. split.
    + intros [H|(before & after & H)].
      * apply prefix_iff in H as [after H]. exists "", after. exact H.
      * exists (String c before), after. simpl. rewrite H. reflexivity.
    + intros (before & after & H). destruct before as [|c' before].
      * left. apply prefix_iff. exists after. exact H.
      * right. simpl in H. injection H as _ H. exists before, after. exact H.
Qed.

(** The test [sub in str] of the comprehensions and of the two loops over
    the leptons holds exactly when [str] is some string, then [sub], then
    some string. *)
Theorem in_is_substring (sub str : string) :
  Is_true (contains sub str) ↔ ∃ before after, str = before +:+ sub +:+ after.
Proof. rewrite Is_true_true. apply contains_iff. Qed.

(** ** The registry and the taxonomy *)

(** Each member of [everything] is in exactly one of the four classes
    lepton, antilepton, baryon, antibaryon, and its record agrees with the
    taxonomy: ['class'] names that class, the lepton number and the baryon
    number are those of the class, and ['antimatter'] tells whether the
    symbol is among the antiparticles. *)
Theorem records_agree_with_taxonomy (iter : gset string → list string) :
  walks iter →
  ∃ ls als bs abs antimatter things Particles,
    leptons ParticleZoo = Some ls ∧
    antileptons ParticleZoo = Some als ∧
    baryons ParticleZoo = Some bs ∧
    antibaryons ParticleZoo = Some abs ∧
    antiparticles ParticleZoo = Some antimatter ∧
    everything ParticleZoo = Some things ∧
    _create_Particles_dict iter = Some Particles ∧
    ∀ thing, thing ∈ things →
      ((thing ∈ ls ∧ (thing ∉ als) ∧ (thing ∉ bs) ∧ (thing ∉ abs) ∧
        field Particles thing "class" = Some (PyStr "lepton") ∧
        field Particles thing "lepton number" = Some (PyInt 1) ∧
        field Particles thing "baryon number" = Some (PyInt 0)) ∨
       ((thing ∉ ls) ∧ thing ∈ als ∧ (thing ∉ bs) ∧ (thing ∉ abs) ∧
        field Particles thing "class" = Some (PyStr "antilepton") ∧
        field Particles thing "lepton number" = Some (PyInt (-1)) ∧
        field Particles thing "baryon number" = Some (PyInt 0)) ∨
       ((thing ∉ ls) ∧ (thing ∉ als) ∧ thing ∈ bs ∧ (thing ∉ abs) ∧
        field Particles thing "class" = Some (PyStr "baryon") ∧
        field Particles thing "lepton number" = Some (PyInt 0) ∧
        field Particles thing "baryon number" = Some (PyInt 1)) ∨
       ((thing ∉ ls) ∧ (thing ∉ als) ∧ (thing ∉ bs) ∧ thing ∈ abs ∧
        field Particles thing "class" = Some (PyStr "antibaryon") ∧
        field Particles thing "lepton number" = Some (PyInt 0) ∧
        field Particles thing "baryon number" = Some (PyInt (-1)))) ∧
      field Particles thing "antimatter" =
        Some (PyBool (bool_decide (thing ∈ antimatter))).
Proof.
  intros Hw. registry Hw Particles.
  eexists _, _, _, _, _, _, Particles.
  split; [exact leptons_eq|]. split; [exact antileptons_eq|].
  split; [exact baryons_eq|]. split; [exact antibaryons_eq|].
  split; [exact antiparticles_eq|]. split; [exact everything_eq|].
  split; [reflexivity|].
  assert (Hflag : ∀ thing b (X : gset string),
            field Particles thing "antimatter" = Some (PyBool b) →
            (if b then thing ∈ X else thing ∉ X) →
            field Particles thing "antimatter" =
              Some (PyBool (bool_decide (thing ∈ X)))).
  { intros thing b X HF Hb. rewrite HF. do 2 f_equal. destruct b.
    - symmetry. apply bool_decide_eq_true_2, Hb.
    - symmetry. apply bool_decide_eq_false_2, Hb. }
  intros thing Hthing. members Hthing.
  all: split;
    [ first
        [ left; repeat lazymatch goal with
          | |- _ ∧ _ => split
          | |- _ ∈ _ => member
          | |- _ ∉ _ => let H := fresh in intros H; absurd_member H
          | |- field _ _ _ = _ => assumption
          end; fail
        | right; left; repeat lazymatch goal with
          | |- _ ∧ _ => split
          | |- _ ∈ _ => member
          | |- _ ∉ _ => let H := fresh in intros H; absurd_member H
          | |- field _ _ _ = _ => assumption
          end; fail
        | right; right; left; repeat lazymatch goal with
          | |- _ ∧ _ => split
          | |- _ ∈ _ => member
          | |- _ ∉ _ => let H := fresh in intros H; absurd_member H
          | |- field _ _ _ = _ => assumption
          end; fail
        | right; right; right; repeat lazymatch goal with
          | |- _ ∧ _ => split
          | |- _ ∈ _ => member
          | |- _ ∉ _ => let H := fresh in intros H; absurd_member H
          | |- field _ _ _ = _ => assumption
          end; fail ]
    | eapply Hflag; [eassumption|]; cbv iota;
      first [member | let H := fresh in intros H; absurd_member H] ].
Qed.

Lemma records_agree_with_taxonomy_witness :
  walks elements ∧
  ∃ ls als bs abs antimatter things Particles,
    leptons ParticleZoo = Some ls ∧
    antileptons ParticleZoo = Some als ∧
    baryons ParticleZoo = Some bs ∧
    antibaryons ParticleZoo = Some abs ∧
    antiparticles ParticleZoo = Some antimatter ∧
    everything ParticleZoo = Some things ∧
    _create_Particles_dict elements = Some Particles ∧
    ∀ thing, thing ∈ things →
      ((thing ∈ ls ∧ (thing ∉ als) ∧ (thing ∉ bs) ∧ (thing ∉ abs) ∧
        field Particles thing "class" = Some (PyStr "lepton") ∧
        field Particles thing "lepton number" = Some (PyInt 1) ∧
        field Particles thing "baryon number" = Some (PyInt 0)) ∨
       ((thing ∉ ls) ∧ thing ∈ als ∧ (thing ∉ bs) ∧ (thing ∉ abs) ∧
        field Particles thing "class" = Some (PyStr "antilepton") ∧
        field Particles thing "lepton number" = Some (PyInt (-1)) ∧
        field Particles thing "baryon number" = Some (PyInt 0)) ∨
       ((thing ∉ ls) ∧ (thing ∉ als) ∧ thing ∈ bs ∧ (thing ∉ abs) ∧
        field Particles thing "class" = Some (PyStr "baryon") ∧
        field Particles thing "lepton number" = Some (PyInt 0) ∧
        field Particles thing "baryon number" = Some (PyInt 1)) ∨
       ((thing ∉ ls) ∧ (thing ∉ als) ∧ (thing ∉ bs) ∧ thing ∈ abs ∧
        field Particles thing "class" = Some (PyStr "antibaryon") ∧
        field Particles thing "lepton number" = Some (PyInt 0) ∧
        field Particles thing "baryon number" = Some (PyInt (-1)))) ∧
      field Particles thing "antimatter" =
        Some (PyBool (bool_decide (thing ∈ antimatter))).
Proof.
  split.
  - intros X. reflexivity.
  - apply (records_agree_with_taxonomy elements). intros X. reflexivity.
Defined.

(** In every record the half-life is a quantity in seconds; the mass is
    [None] exactly for the neutrinos and antineutrinos, and for every other
    particle a quantity: an astropy constant or a number of kilograms. *)
Theorem masses_and_half_lives_are_quantities (iter : gset string → list string) :
  walks iter →
  ∃ nus anus things Particles,
    neutrinos ParticleZoo = Some nus ∧
    antineutrinos ParticleZoo = Some anus ∧
    everything ParticleZoo = Some things ∧
    _create_Particles_dict iter = Some Particles ∧
    ∀ thing, thing ∈ things →
      (∃ seconds,
         field Particles thing "half-life" = Some (PyQuantity (Mul seconds u.s))) ∧
      ((thing ∈ nus ∪ anus ∧ field Particles thing "mass" = Some PyNone) ∨
       ((thing ∉ nus ∪ anus) ∧
        ((∃ c, field Particles thing "mass" = Some (PyQuantity (Const c))) ∨
         (∃ kilograms,
            field Particles thing "mass" = Some (PyQuantity (Mul kilograms u.kg)))))).
Proof.
  intros Hw. registry Hw Particles.
  eexists _, _, _, Particles.
  split; [exact neutrinos_eq|]. split; [exact antineutrinos_eq|].
  split; [exact everything_eq|]. split; [reflexivity|].
  intros thing Hthing. members Hthing.
  all: split; [eexists; eassumption|].
  all: first
    [ left; split; [member | assumption]
    | right; split; [let H := fresh in intros H; absurd_member H|];
      first [left; eexists; eassumption | right; eexists; eassumption] ].
Qed.

Lemma masses_and_half_lives_are_quantities_witness :
  walks elements ∧
  ∃ nus anus things Particles,
    neutrinos ParticleZoo = Some nus ∧
    antineutrinos ParticleZoo = Some anus ∧
    everything ParticleZoo = Some things ∧
    _create_Particles_dict elements = Some Particles ∧
    ∀ thing, thing ∈ things →
      (∃ seconds,
         field Particles thing "half-life" = Some (PyQuantity (Mul seconds u.s))) ∧
      ((thing ∈ nus ∪ anus ∧ field Particles thing "mass" = Some PyNone) ∨
       ((thing ∉ nus ∪ anus) ∧
        ((∃ c, field Particles thing "mass" = Some (PyQuantity (Const c))) ∨
         (∃ kilograms,
            field Particles thing "mass" = Some (PyQuantity (Mul kilograms u.kg)))))).
Proof.
  split.
  - intros X. reflexivity.
  - apply (masses_and_half_lives_are_quantities elements). intros X. reflexivity.
Defined.

(** ** The loops on any dictionary *)

(** A loop whose body replaces the record [d] of its variable by [g d],
    and raises when there is none. *)
Lemma for_update (g : ParticleDict → ParticleDict) (body : string → Build unit)
    (l : list string) (Particles : ParticlesDict) :
  (∀ thing Q, body thing Q =
     match Q !! thing with
     | Some d => Some (tt, <[thing := g d]> Q)
     | None => None
     end) →
  (∀ d, g (g d) = g d) →
  (is_Some (for_ l body Particles) ↔
   ∀ thing, thing ∈ l → is_Some (Particles !! thing)) ∧
  ∀ Particles',
    for_ l body Particles = Some (tt, Particles') →
    ∀ thing, Particles' !! thing =
             if decide (thing ∈ l) then g <$> Particles !! thing
             else Particles !! thing.
Proof.
  intros Hbody Hg. revert Particles.
  induction l as [|x l IH]; intros P; simpl.
  - split.
    + split; [|eauto]. intros _ t Ht. apply elem_of_nil in Ht. destruct Ht.
    + intros P' H t. injection H as <-.
      destruct (decide (t ∈ [])) as [Ht|_]; [|reflexivity].
      apply elem_of_nil in Ht. destruct Ht.
  - unfold mbind, Build_bind. rewrite Hbody.
    destruct (P !! x) as [d|] eqn:E.
    + destruct (IH (<[x := g d]> P)) as [IHs IHl]. split.
      * rewrite IHs. split.
        -- intros H t Ht. apply elem_of_cons in Ht as [->|Ht]; [rewrite E; eauto|].
           specialize (H t Ht). rewrite lookup_insert_is_Some in H.
           destruct H as [<-|[_ H]]; [rewrite E; eauto | exact H].
        -- intros H t Ht. rewrite lookup_insert_is_Some.
           destruct (decide (x = t)) as [Heq|Hne]; [left; exact Heq|].
           right. split; [exact Hne|]. apply H, list_elem_of_further, Ht.
      * intros P' H t. rewrite (IHl P' H t).
        destruct (decide (t = x)) as [->|Hne].
        -- rewrite lookup_insert_eq, E, (decide_True _ _ (list_elem_of_here x l)).
           simpl. destruct (decide (x ∈ l)); [|reflexivity].
           simpl. rewrite Hg. reflexivity.
        -- rewrite lookup_insert_ne by congruence.
           destruct (decide (t ∈ l)) as [Ht|Ht].
           ++ rewrite decide_True; [reflexivity|]. apply list_elem_of_further, Ht.
           ++ rewrite decide_False; [reflexivity|]. rewrite elem_of_cons. tauto.
    + split.
      * split; [intros [y Hy]; discriminate Hy|].
        intros H. specialize (H x (list_elem_of_here _ _)).
        rewrite E in H. destruct H as [y Hy]. discriminate Hy.
      * intros P' H. discriminate H.
Qed.

Lemma for_setitem (l : list string) key value (Particles : ParticlesDict) :
  (is_Some (for_ l (λ thing, setitem thing key value) Particles) ↔
   ∀ thing, thing ∈ l → is_Some (Particles !! thing)) ∧
  ∀ Particles',
    for_ l (λ thing, setitem thing key value) Particles = Some (tt, Particles') →
    ∀ thing, Particles' !! thing =
             if decide (thing ∈ l) then <[key := value]> <$> Particles !! thing
             else Particles !! thing.
Proof.
  apply for_update.
  - intros thing Q. reflexivity.
  - intros d. apply insert_insert_eq.
Qed.

Lemma for_setitem_assigns iter (X : gset string) key value Particles :
  walks iter →
  assigns (for_ (iter X) (λ thing, setitem thing key value)) X key value Particles.
Proof.
  intros Hw. destruct (for_setitem (iter X) key value Particles) as [Hs Hl].
  assert (Hin : ∀ t, t ∈ iter X ↔ t ∈ X).
  { intros t. rewrite (Hw X). apply elem_of_elements. }
  split.
  - rewrite Hs. split; intros H t Ht; apply H, Hin, Ht.
  - intros P' HP' t k. unfold field. rewrite (Hl P' HP' t).
    destruct (decide (t ∈ iter X)) as [Ht|Ht].
    + assert (Hrec : is_Some (Particles !! t)).
      { apply Hs; [rewrite HP'; eauto | exact Ht]. }
      destruct Hrec as [d Hd]. rewrite Hd. simpl.
      destruct (decide (k = key)) as [->|Hk].
      * rewrite lookup_insert_eq, decide_True; [reflexivity|].
        split; [apply Hin, Ht | reflexivity].
      * rewrite lookup_insert_ne by congruence.
        rewrite decide_False; [reflexivity | tauto].
    + rewrite decide_False; [reflexivity|]. rewrite <- Hin. tauto.
Qed.

(** The loops that assign one value to one key -- the spins of the
    fermions and of the bosons, the mass of the neutrinos, the two values of
    ['antimatter'] -- on any dictionary, in any order of the set: each
    returns exactly when every member of its set has a record (otherwise the
    assignment raises [KeyError]), it sets its key in the records of these
    members, and it changes no other field of any record.  The loop over the
    bosons, whose set is empty, always returns and changes nothing. *)
Theorem single_assignment_loops (iter : gset string → list string) :
  walks iter →
  ∃ fs bos nus anus matter antimatter,
    fermions ParticleZoo = Some fs ∧
    bosons ParticleZoo = Some bos ∧
    neutrinos ParticleZoo = Some nus ∧
    antineutrinos ParticleZoo = Some anus ∧
    particles ParticleZoo = Some matter ∧
    antiparticles ParticleZoo = Some antimatter ∧
    ∀ Particles,
      assigns (set_fermion_spins iter) fs "spin" (PyFloat 0.5) Particles ∧
      assigns (set_boson_spins iter) bos "spin" (PyInt 0) Particles ∧
      assigns (set_neutrino_masses iter) (nus ∪ anus) "mass" PyNone Particles ∧
      assigns (set_matter iter) matter "antimatter" (PyBool false) Particles ∧
      assigns (set_antimatter iter) antimatter "antimatter" (PyBool true) Particles ∧
      set_boson_spins iter Particles = Some (tt, Particles).
Proof.
  intros Hw. eexists _, _, _, _, _, _.
  split; [exact fermions_eq|]. split; [exact bosons_eq|].
  split; [exact neutrinos_eq|]. split; [exact antineutrinos_eq|].
  split; [exact particles_eq|]. split; [exact antiparticles_eq|].
  intros P.
  split; [exact (for_setitem_assigns iter _ _ _ P Hw)|].
  split; [exact (for_setitem_assigns iter _ _ _ P Hw)|].
  split.
  { unfold set_neutrino_masses. rewrite neutrinos_eq, antineutrinos_eq.
    exact (for_setitem_assigns iter _ _ _ P Hw). }
  split; [exact (for_setitem_assigns iter _ _ _ P Hw)|].
  split; [exact (for_setitem_assigns iter _ _ _ P Hw)|].
  unfold set_boson_spins. rewrite bosons_eq.
  assert (Hnil : iter ∅ = []).
  { apply Permutation_nil_r. rewrite (Hw ∅), elements_empty. reflexivity. }
  unfold mbind, Build_bind, evaluate. rewrite Hnil. reflexivity.
Qed.

Lemma single_assignment_loops_witness :
  walks elements ∧
  ∃ fs bos nus anus matter antimatter,
    fermions ParticleZoo = Some fs ∧
    bosons ParticleZoo = Some bos ∧
    neutrinos ParticleZoo = Some nus ∧
    antineutrinos ParticleZoo = Some anus ∧
    particles ParticleZoo = Some matter ∧
    antiparticles ParticleZoo = Some antimatter ∧
    ∀ Particles,
      assigns (set_fermion_spins elements) fs "spin" (PyFloat 0.5) Particles ∧
      assigns (set_boson_spins elements) bos "spin" (PyInt 0) Particles ∧
      assigns (set_neutrino_masses elements) (nus ∪ anus) "mass" PyNone Particles ∧
      assigns (set_matter elements) matter "antimatter" (PyBool false) Particles ∧
      assigns (set_antimatter elements) antimatter "antimatter" (PyBool true)
        Particles ∧
      set_boson_spins elements Particles = Some (tt, Particles).
Proof.
  split.
  - intros X. reflexivity.
  - apply (single_assignment_loops elements). intros X. reflexivity.
Defined.

Lemma with_default_half_life_idempotent (d : ParticleDict) :
  with_default_half_life (with_default_half_life d) = with_default_half_life d.
Proof.
  unfold with_default_half_life.
  destruct (decide (is_Some (d !! "half-life"))) as [H|H].
  - destruct (decide (is_Some (d !! "half-life"))); [reflexivity | contradiction].
  - destruct (decide (is_Some
      (<["half-life" := PyQuantity (Mul np.inf u.s)]> d !! "half-life")))
      as [_|H']; [reflexivity|].
    destruct H'. rewrite lookup_insert_eq. eauto.
Qed.

Lemma default_half_life_body thing (Q : ParticlesDict) :
  (present ← has_key thing "half-life";
   if negb present
   then setitem thing "half-life" (PyQuantity (Mul np.inf u.s))
   else mret tt) Q =
  match Q !! thing with
  | Some d => Some (tt, <[thing := with_default_half_life d]> Q)
  | None => None
  end.
Proof.
  unfold mbind, Build_bind, has_key, with_default_half_life.
  destruct (Q !! thing) as [d|] eqn:E; [|reflexivity].
  destruct (decide (is_Some (d !! "half-life"))) as [H|H].
  - rewrite bool_decide_eq_true_2 by exact H. simpl.
    unfold mret, Build_ret. rewrite insert_id; [reflexivity | exact E].
  - rewrite bool_decide_eq_false_2 by exact H. simpl.
    unfold setitem. rewrite E. reflexivity.
Qed.

Lemma default_half_life_loop iter (X : gset string) (Particles : ParticlesDict) :
  walks iter →
  (is_Some (for_ (iter X) (λ thing,
      present ← has_key thing "half-life";
      if negb present
      then setitem thing "half-life" (PyQuantity (Mul np.inf u.s))
      else mret tt) Particles) ↔
   ∀ thing, thing ∈ X → is_Some (Particles !! thing)) ∧
  ∀ Particles',
    for_ (iter X) (λ thing,
      present ← has_key thing "half-life";
      if negb present
      then setitem thing "half-life" (PyQuantity (Mul np.inf u.s))
      else mret tt) Particles = Some (tt, Particles') →
    ∀ thing key,
      (thing ∈ X → field Particles thing "half-life" = None →
       field Particles' thing "half-life" = Some (PyQuantity (Mul np.inf u.s))) ∧
      (is_Some (field Particles thing key) →
       field Particles' thing key = field Particles thing key) ∧
      (key ≠ "half-life" ∨ thing ∉ X →
       field Particles' thing key = field Particles thing key).
Proof.
  intros Hw.
  destruct (for_update with_default_half_life _ (iter X) Particles
              default_half_life_body with_default_half_life_idempotent)
    as [Hs Hl].
  assert (Hin : ∀ t, t ∈ iter X ↔ t ∈ X)
    by (intros t; rewrite (Hw X); apply elem_of_elements).
  split.
  - etransitivity; [exact Hs|].
    split; intros H t Ht; apply H, Hin, Ht.
  - intros P' HP'. specialize (Hl P' HP'). intros thing key.
    assert (Hrec : ∀ t, t ∈ iter X → is_Some (Particles !! t)).
    { apply (proj1 Hs). exists (tt, P'). exact HP'. }
    assert (Hfield : field P' thing key =
              if decide (thing ∈ iter X)
              then d ← Particles !! thing; with_default_half_life d !! key
              else field Particles thing key).
    { unfold field. rewrite (Hl thing).
      destruct (decide (thing ∈ iter X)); [|reflexivity].
      destruct (Particles !! thing); reflexivity. }
    split; [|split].
    + intros Hthing Hnone. apply Hin in Hthing.
      destruct (Hrec thing Hthing) as [d Hd].
      generalize (Hl thing). rewrite decide_True by exact Hthing.
      rewrite Hd. simpl. intros Hl'. unfold field in Hnone |- *.
      rewrite Hd in Hnone. simpl in Hnone. rewrite Hl'. simpl.
      unfold with_default_half_life.
      rewrite decide_False; [apply lookup_insert_eq|].
      rewrite Hnone. intros [v Hv]. discriminate Hv.
    + intros Hsome. rewrite Hfield.
      destruct (decide (thing ∈ iter X)) as [Hthing|]; [|reflexivity].
      unfold field in Hsome |- *.
      destruct (Particles !! thing) as [d|]; [|reflexivity].
      simpl in *. unfold with_default_half_life.
      destruct (decide (is_Some (d !! "half-life"))); [reflexivity|].
      destruct (decide (key = "half-life")) as [->|Hne]; [contradiction|].
      rewrite lookup_insert_ne by congruence. reflexivity.
    + intros Hor. rewrite Hfield.
      destruct (decide (thing ∈ iter X)) as [Hthing|]; [|reflexivity].
      destruct Hor as [Hne|Hnot]; [|destruct Hnot; apply Hin, Hthing].
      unfold field. destruct (Particles !! thing) as [d|]; [|reflexivity].
      simpl. unfold with_default_half_life.
      destruct (decide (is_Some (d !! "half-life"))); [reflexivity|].
      rewrite lookup_insert_ne by congruence. reflexivity.
Qed.

(** The loop that gives a half-life to the records without one, on any
    dictionary and in any order of the set: it returns exactly when every
    member of [everything] has a record; a member whose record has no
    ['half-life'] gets [np.inf * u.s]; a field that is set, a half-life
    among them, keeps its value, and no other field appears. *)
Theorem stable_half_lives_on_any_dictionary (iter : gset string → list string) :
  walks iter →
  ∃ things,
    everything ParticleZoo = Some things ∧
    ∀ Particles,
      (is_Some (set_stable_half_lives iter Particles) ↔
       ∀ thing, thing ∈ things → is_Some (Particles !! thing)) ∧
      ∀ Particles',
        set_stable_half_lives iter Particles = Some (tt, Particles') →
        ∀ thing key,
          (thing ∈ things → field Particles thing "half-life" = None →
           field Particles' thing "half-life" =
             Some (PyQuantity (Mul np.inf u.s))) ∧
          (is_Some (field Particles thing key) →
           field Particles' thing key = field Particles thing key) ∧
          (key ≠ "half-life" ∨ thing ∉ things →
           field Particles' thing key = field Particles thing key).
Proof.
  intros Hw. eexists. split; [exact everything_eq|].
  intros P. exact (default_half_life_loop iter _ P Hw).
Qed.

Lemma stable_half_lives_on_any_dictionary_witness :
  walks elements ∧
  ∃ things,
    everything ParticleZoo = Some things ∧
    ∀ Particles,
      (is_Some (set_stable_half_lives elements Particles) ↔
       ∀ thing, thing ∈ things → is_Some (Particles !! thing)) ∧
      ∀ Particles',
        set_stable_half_lives elements Particles = Some (tt, Particles') →
        ∀ thing key,
          (thing ∈ things → field Particles thing "half-life" = None →
           field Particles' thing "half-life" =
             Some (PyQuantity (Mul np.inf u.s))) ∧
          (is_Some (field Particles thing key) →
           field Particles' thing key = field Particles thing key) ∧
          (key ≠ "half-life" ∨ thing ∉ things →
           field Particles' thing key = field Particles thing key).
Proof.
  split.
  - intros X. reflexivity.
  - apply (stable_half_lives_on_any_dictionary elements). intros X. reflexivity.
Defined.
